(** * api-cloudflare-restaurantes: orders, users and file uploads

    A shallow embedding of the service, repository, controller and
    middleware code of the API, and the properties its specification
    states about them.

    Conventions of the embedding.
    - The relational store (Prisma over D1) is a record of tables, each a
      finite map from the row id to the row, with the AUTOINCREMENT counter
      of the table next to it.  A repository call is a function on that
      state; the store itself never fails on a well-formed call.
    - An [async] method that may [throw] is a computation in the monad
      [M]: it threads the state and returns [Ok] or the thrown [Err].
      A [throw] keeps the writes done before it, as the code has no
      transaction.
    - A JS [number] is [NaN], an infinity or a finite rational; counts,
      ids, page numbers and sizes are integers ([Z]).
    - Hashing and token signing are library calls: they are the fields of
      the class [Primitives]. *)

From Stdlib Require Import ZArith QArith Qround Lia.
From Stdlib Require Import Ascii.
From stdpp Require Import base option list strings gmap pretty sorting.

Open Scope string_scope.
Open Scope Z_scope.

(** ** JavaScript values *)

(** The [number] type: every finite double is a rational, and the
    comparisons of the language agree with the rational ones. *)
Inductive number : Type :=
  | NaN
  | NegInf
  | PosInf
  | Fin (q : Q).

Definition num_of_Z (z : Z) : number := Fin (inject_Z z).

(** [a <= b] of the language: false as soon as one side is [NaN]. *)
Definition num_leb (a b : number) : bool :=
  match a, b with
  | NaN, _ | _, NaN => false
  | NegInf, _ => true
  | _, PosInf => true
  | PosInf, _ => false
  | _, NegInf => false
  | Fin x, Fin y => Qle_bool x y
  end.

(** [a < b] of the language. *)
Definition num_ltb (a b : number) : bool :=
  match a, b with
  | NaN, _ | _, NaN => false
  | NegInf, NegInf => false
  | NegInf, _ => true
  | PosInf, _ => false
  | _, NegInf => false
  | Fin _, PosInf => true
  | Fin x, Fin y => negb (Qle_bool y x)
  end.

(** [a > b] is [b < a]. *)
Definition num_gtb (a b : number) : bool := num_ltb b a.

(** [a / b] for an integer count [a] and an integer [b]. *)
Definition num_div (a b : Z) : number :=
  if decide (b = 0) then
    (if decide (a = 0) then NaN else if decide (0 < a) then PosInf else NegInf)
  else Fin (inject_Z a / inject_Z b)%Q.

(** [Math.ceil]. *)
Definition Math_ceil (x : number) : number :=
  match x with
  | Fin q => Fin (inject_Z (Qceiling q))
  | other => other
  end.

(** [x || d] on strings: the empty string is falsy. *)
Definition str_or (x d : string) : string :=
  if decide (x = "") then d else x.

(** ** Errors and computations *)

(** A thrown object: [new Error(message)] has no [status],
    [new HTTPException(status, {message})] has one. *)
Record Error : Type := mkError {
  message : string;
  status : option Z;
}.

Definition new_Error (msg : string) : Error := mkError msg None.
Definition HTTPException (st : Z) (msg : string) : Error := mkError msg (Some st).

Inductive result (A : Type) : Type :=
  | Ok (a : A)
  | Err (e : Error).
Arguments Ok {A} a.
Arguments Err {A} e.

Definition is_Ok {A} (r : result A) : bool :=
  match r with Ok _ => true | Err _ => false end.

(** [f <$> r] maps the value of a success. *)
Global Instance fmap_result : FMap result :=
  fun A B f r => match r with Ok a => Ok (f a) | Err e => Err e end.

(** ** The data model *)

(** The sizes ['P'], ['M'], ['G'], ['GG']. *)
Inductive Tamanho : Type := TamP | TamM | TamG | TamGG.

(** A row of [pedidos] (migration 001). *)
Record Pedido : Type := mkPedido {
  pedido_id : Z;
  cliente : string;
  tamanho : Tamanho;
  complemento : option string;
  preco : number;
  pedido_status : string;
  pedido_criadoEm : Z;
  pedido_atualizadoEm : Z;
}.

(** A row of [usuarios] (migration 003). *)
Record Usuario : Type := mkUsuario {
  usuario_id : Z;
  email : string;
  senha : string;
  nome : string;
  role : string;
  ativo : bool;
  usuario_criadoEm : Z;
  usuario_atualizadoEm : Z;
}.

(** A row of [arquivos] (migration 004). *)
Record Arquivo : Type := mkArquivo {
  arquivo_id : Z;
  arquivo_nome : string;
  arquivo_url : string;
  arquivo_tipo : string;
  arquivo_tamanho : Z;
  arquivo_criadoEm : Z;
}.

(** An object of the R2 bucket: the bytes with the metadata of the put. *)
Record R2Object : Type := mkR2Object {
  r2_body : list Z;
  r2_contentType : string;
  r2_contentDisposition : string;
  r2_originalName : string;
  r2_uploadedBy : string;
  r2_uploadedAt : Z;
}.

(** The state outside the worker: the three tables, their counters, the
    bucket, and the clock the store stamps rows with. *)
Record World : Type := mkWorld {
  pedidos : gmap Z Pedido;
  pedido_seq : Z;
  usuarios : gmap Z Usuario;
  usuario_seq : Z;
  arquivos : gmap Z Arquivo;
  arquivo_seq : Z;
  bucket : gmap string R2Object;
  clock : Z;
}.

Definition empty_world : World :=
  mkWorld ∅ 0 ∅ 0 ∅ 0 ∅ 0.

Definition with_pedidos (t : gmap Z Pedido) (sq : Z) (w : World) : World :=
  mkWorld t sq (usuarios w) (usuario_seq w) (arquivos w) (arquivo_seq w)
          (bucket w) (clock w).

Definition with_usuarios (t : gmap Z Usuario) (sq : Z) (w : World) : World :=
  mkWorld (pedidos w) (pedido_seq w) t sq (arquivos w) (arquivo_seq w)
          (bucket w) (clock w).

Definition with_arquivos (t : gmap Z Arquivo) (sq : Z) (w : World) : World :=
  mkWorld (pedidos w) (pedido_seq w) (usuarios w) (usuario_seq w) t sq
          (bucket w) (clock w).

Definition with_bucket (b : gmap string R2Object) (w : World) : World :=
  mkWorld (pedidos w) (pedido_seq w) (usuarios w) (usuario_seq w)
          (arquivos w) (arquivo_seq w) b (clock w).


(** The monad of the async methods. *)
Definition M (A : Type) : Type := World -> result A * World.

Definition ret {A} (a : A) : M A := fun w => (Ok a, w).
Definition throw {A} (e : Error) : M A := fun w => (Err e, w).
Definition bind {A B} (m : M A) (k : A -> M B) : M B :=
  fun w =>
    match m w with
    | (Ok a, w') => k a w'
    | (Err e, w') => (Err e, w')
    end.

(** [try { m } catch (error) { h error }]. *)
Definition try_catch {A} (m : M A) (h : Error -> M A) : M A :=
  fun w =>
    match m w with
    | (Ok a, w') => (Ok a, w')
    | (Err e, w') => h e w'
    end.

Declare Scope m_scope.
Delimit Scope m_scope with m.
Notation "x <- c1 ;; c2" := (bind c1 (fun x => c2))
  (at level 100, c1 at next level, right associativity) : m_scope.
Notation "c1 ;;; c2" := (bind c1 (fun _ => c2))
  (at level 100, right associativity) : m_scope.
Open Scope m_scope.

(** ** Strings *)

(** ASCII lower-casing of one character and of a string. *)
Definition lower_ascii (c : Ascii.ascii) : Ascii.ascii :=
  let n := Ascii.nat_of_ascii c in
  if (65 <=? n)%nat && (n <=? 90)%nat then Ascii.ascii_of_nat (n + 32) else c.

Fixpoint to_lower (s : string) : string :=
  match s with
  | EmptyString => EmptyString
  | String c r => String (lower_ascii c) (to_lower r)
  end.

(** [hay] has [needle] as a substring. *)
Definition str_contains (needle hay : string) : bool :=
  if decide (needle = "") then true
  else bool_decide (is_Some (String.index 0 needle hay)).

(** The filter [{contains: needle, mode: 'insensitive'}] of the store. *)
Definition contains_insensitive (needle hay : string) : bool :=
  str_contains (to_lower needle) (to_lower hay).

(** ** Orders: validated inputs *)

(** [CreatePedidoInput]. *)
Record CreatePedidoInput : Type := mkCreatePedidoInput {
  create_cliente : string;
  create_tamanho : Tamanho;
  create_complemento : option string;
  create_preco : number;
}.

(** [UpdatePedidoInput]: every field may be absent. *)
Record UpdatePedidoInput : Type := mkUpdatePedidoInput {
  upd_cliente : option string;
  upd_tamanho : option Tamanho;
  upd_complemento : option string;
  upd_preco : option number;
  upd_status : option string;
}.

(** The object literal [{ status }]. *)
Definition only_status (s : string) : UpdatePedidoInput :=
  mkUpdatePedidoInput None None None None (Some s).

(** [ListPedidosQuery]. *)
Record ListPedidosQuery : Type := mkListPedidosQuery {
  page : Z;
  limit : Z;
  q_status : option string;
  q_cliente : option string;
}.

(** The pagination object of the listings. *)
Record Pagination : Type := mkPagination {
  pg_page : Z;
  pg_limit : Z;
  pg_total : Z;
  totalPages : number;
  hasNext : bool;
  hasPrev : bool;
}.

(** ** Orders: repository *)

Module PedidoRepository.

(** The row the store builds for an insert: the id from the counter,
    the status from the column default ['pendente'], both timestamps
    from [CURRENT_TIMESTAMP]. *)
Definition new_row (w : World) (data : CreatePedidoInput) : Pedido :=
  mkPedido (pedido_seq w + 1) (create_cliente data) (create_tamanho data)
           (create_complemento data) (create_preco data) "pendente"
           (clock w) (clock w).

Definition create (data : CreatePedidoInput) : M Pedido :=
  fun w =>
    let row := new_row w data in
    (Ok row,
     with_pedidos (<[pedido_id row := row]> (pedidos w)) (pedido_id row) w).

Definition findById (id : Z) : M (option Pedido) :=
  fun w => (Ok (pedidos w !! id), w).

(** The [where] clause built from the query: a falsy filter is left
    out. *)
Definition matches (status cliente_filter : option string) (p : Pedido) : bool :=
  (match status with
   | Some s => if decide (s = "") then true
               else bool_decide (pedido_status p = s)
   | None => true
   end)
  &&
  (match cliente_filter with
   | Some c => if decide (c = "") then true
               else contains_insensitive c (cliente p)
   | None => true
   end).

(** [orderBy: { criadoEm: 'desc' }]. *)
Definition newer_first (a b : Pedido) : Prop :=
  pedido_criadoEm b ≤ pedido_criadoEm a.

Global Instance newer_first_dec a b : Decision (newer_first a b).
Proof. unfold newer_first. apply _. Defined.

Definition rows (w : World) : list Pedido := (map_to_list (pedidos w)).*2.

Definition selected (status cliente_filter : option string) (w : World)
  : list Pedido :=
  List.filter (matches status cliente_filter) (rows w).

Definition findMany (query : ListPedidosQuery) : M (list Pedido * Z) :=
  fun w =>
    let skip := (page query - 1) * limit query in
    let sel := selected (q_status query) (q_cliente query) w in
    let found :=
      take (Z.to_nat (limit query))
           (drop (Z.to_nat skip) (merge_sort newer_first sel)) in
    (Ok (found, Z.of_nat (length sel)), w).

(** The fields present in the patch replace those of the row. *)
Definition patch (data : UpdatePedidoInput) (p : Pedido) : Pedido :=
  mkPedido (pedido_id p)
           (default (cliente p) (upd_cliente data))
           (default (tamanho p) (upd_tamanho data))
           (match upd_complemento data with
            | Some c => Some c
            | None => complemento p
            end)
           (default (preco p) (upd_preco data))
           (default (pedido_status p) (upd_status data))
           (pedido_criadoEm p) (pedido_atualizadoEm p).

(** The store rejects the update of a missing row; the [catch] turns
    that into [null]. *)
Definition update (id : Z) (data : UpdatePedidoInput) : M (option Pedido) :=
  fun w =>
    match pedidos w !! id with
    | Some p =>
        let p' := patch data p in
        (Ok (Some p'), with_pedidos (<[id := p']> (pedidos w)) (pedido_seq w) w)
    | None => (Ok None, w)
    end.

Definition delete (id : Z) : M bool :=
  fun w =>
    match pedidos w !! id with
    | Some _ =>
        (Ok true, with_pedidos (base.delete id (pedidos w)) (pedido_seq w) w)
    | None => (Ok false, w)
    end.

(** [groupBy status] then the [reduce] into an object. *)
Definition countByStatus : M (gmap string Z) :=
  fun w =>
    (Ok (foldl (fun acc p =>
                  <[pedido_status p := default 0 (acc !! pedido_status p) + 1]> acc)
               ∅ (rows w)), w).

End PedidoRepository.

(** ** Orders: service *)

Module PedidoService.

Definition validStatuses : list string :=
  ["pendente"; "preparando"; "pronto"; "entregue"; "cancelado"].

Definition createPedido (data : CreatePedidoInput) : M Pedido :=
  if num_leb (create_preco data) (num_of_Z 0)
  then throw (new_Error "Preço deve ser maior que zero")
  else PedidoRepository.create data.

Definition getPedidoById (id : Z) : M Pedido :=
  pedido <- PedidoRepository.findById id ;;
  match pedido with
  | None => throw (new_Error "Pedido não encontrado")
  | Some p => ret p
  end.

Definition listPedidos (query : ListPedidosQuery) : M (list Pedido * Pagination) :=
  r <- PedidoRepository.findMany query ;;
  let '(found, total) := r in
  let tp := Math_ceil (num_div total (limit query)) in
  ret (found,
       mkPagination (page query) (limit query) total tp
                    (num_ltb (num_of_Z (page query)) tp)
                    (bool_decide (1 < page query))).

Definition updatePedido (id : Z) (data : UpdatePedidoInput) : M Pedido :=
  getPedidoById id ;;;
  if (match upd_preco data with
      | Some pr => num_leb pr (num_of_Z 0)
      | None => false
      end)
  then throw (new_Error "Preço deve ser maior que zero")
  else
    updatedPedido <- PedidoRepository.update id data ;;
    match updatedPedido with
    | None => throw (new_Error "Erro ao atualizar pedido")
    | Some p => ret p
    end.

Definition deletePedido (id : Z) : M unit :=
  pedido <- getPedidoById id ;;
  if decide (pedido_status pedido = "entregue")
  then throw (new_Error "Não é possível deletar pedidos já entregues")
  else
    deleted <- PedidoRepository.delete id ;;
    if (deleted : bool) then ret tt
    else throw (new_Error "Erro ao deletar pedido").

Definition updateStatus (id : Z) (st : string) : M Pedido :=
  if bool_decide (st ∈ validStatuses)
  then updatePedido id (only_status st)
  else throw (new_Error "Status inválido").

Definition getStatistics : M (gmap string Z) :=
  PedidoRepository.countByStatus.

End PedidoService.

(** ** Environment, tokens and the request context *)

(** The bindings of [Env] the code reads; an unset variable reads as the
    empty string. *)
Record Env : Type := mkEnv {
  JWT_SECRET : string;
  JWT_EXPIRES_IN : string;
  BCRYPT_ROUNDS : string;
  MAX_FILE_SIZE : string;
  ALLOWED_FILE_TYPES : string;
}.

Record JwtPayload : Type := mkJwtPayload {
  userId : Z;
  jwt_email : string;
  jwt_role : string;
}.

(** What the handlers read of the Hono context: the [Authorization]
    header, the ['user'] variable, the bindings and the time of the
    request. *)
Record Context : Type := mkContext {
  authorization : option string;
  ctx_user : option JwtPayload;
  ctx_env : Env;
  ctx_now : Z;
}.

Definition set_user (payload : JwtPayload) (c : Context) : Context :=
  mkContext (authorization c) (Some payload) (ctx_env c) (ctx_now c).

(** The library calls: bcryptjs and jsonwebtoken. *)
Class Primitives : Type := {
  bcrypt_hash : string -> Z -> string;
  bcrypt_compare : string -> string -> bool;
  jwt_sign : JwtPayload -> string -> string -> Z -> string;
  jwt_verify : string -> string -> Z -> option JwtPayload;
}.

(** [parseInt]: leading blanks, a sign, then the longest run of digits
    ([None] is [NaN]); a [0x] prefix switches to base sixteen. *)
Definition digit_of (radix : Z) (c : Ascii.ascii) : option Z :=
  let n := Z.of_nat (Ascii.nat_of_ascii c) in
  let d := if (48 <=? n) && (n <=? 57) then Some (n - 48)
           else if (97 <=? n) && (n <=? 122) then Some (n - 87)
           else if (65 <=? n) && (n <=? 90) then Some (n - 55)
           else None in
  match d with
  | Some v => if v <? radix then Some v else None
  | None => None
  end.

Fixpoint parse_digits (radix : Z) (acc : option Z) (s : string) : option Z :=
  match s with
  | EmptyString => acc
  | String c r =>
      match digit_of radix c with
      | Some d => parse_digits radix (Some (default 0 acc * radix + d)) r
      | None => acc
      end
  end.

Fixpoint skip_blanks (s : string) : string :=
  match s with
  | String c r =>
      let n := Ascii.nat_of_ascii c in
      if ((9 <=? n)%nat && (n <=? 13)%nat) || (n =? 32)%nat
      then skip_blanks r else s
  | EmptyString => s
  end.

Definition parse_unsigned (s : string) : option Z :=
  match s with
  | String "0"%char (String "x"%char r)
  | String "0"%char (String "X"%char r) =>
      parse_digits 16 None r
  | _ => parse_digits 10 None s
  end.

Definition parseInt (s : string) : option Z :=
  match skip_blanks s with
  | String "-"%char r => Z.opp <$> parse_unsigned r
  | String "+"%char r => parse_unsigned r
  | r => parse_unsigned r
  end.

(** [parseInt(s) || d]: [NaN] and [0] are falsy. *)
Definition parseInt_or (s : string) (d : Z) : Z :=
  match parseInt s with
  | Some n => if decide (n = 0) then d else n
  | None => d
  end.

Section Utils.
Context `{Primitives}.

(** hashUtils *)
Definition hashPassword (password : string) (env : Env) : string :=
  let rounds := parseInt_or (BCRYPT_ROUNDS env) 12 in
  bcrypt_hash password rounds.

Definition comparePassword (password hash : string) : bool :=
  bcrypt_compare password hash.

(** jwtUtils; [now] is the time of the call. *)
Definition generateToken (payload : JwtPayload) (env : Env) (now : Z) : string :=
  jwt_sign payload (JWT_SECRET env) (str_or (JWT_EXPIRES_IN env) "7d") now.

Definition verifyToken (token : string) (env : Env) (now : Z) : option JwtPayload :=
  jwt_verify token (JWT_SECRET env) now.

End Utils.

Definition extractTokenFromHeader (authHeader : option string) : option string :=
  match authHeader with
  | Some h =>
      if String.prefix "Bearer " h
      then Some (String.substring 7 (String.length h - 7)%nat h)
      else None
  | None => None
  end.

(** ** Authorization middleware *)

(** A middleware either lets the request through, with the context it
    leaves to the next handler, or throws. *)
Definition Middleware : Type := Context -> result Context.

Section AuthMiddleware.
Context `{Primitives}.

Definition authMiddleware : Middleware :=
  fun c =>
    match extractTokenFromHeader (authorization c) with
    | None => Err (HTTPException 401 "Token de acesso requerido")
    | Some token =>
        if decide (token = "")
        then Err (HTTPException 401 "Token de acesso requerido")
        else
          match verifyToken token (ctx_env c) (ctx_now c) with
          | None => Err (HTTPException 401 "Token inválido ou expirado")
          | Some payload => Ok (set_user payload c)
          end
    end.

Definition optionalAuthMiddleware : Middleware :=
  fun c =>
    match extractTokenFromHeader (authorization c) with
    | None => Ok c
    | Some token =>
        if decide (token = "") then Ok c
        else
          match verifyToken token (ctx_env c) (ctx_now c) with
          | None => Ok c
          | Some payload => Ok (set_user payload c)
          end
    end.

End AuthMiddleware.

Definition roleMiddleware (requiredRoles : list string) : Middleware :=
  fun c =>
    match ctx_user c with
    | None => Err (HTTPException 401 "Usuário não autenticado")
    | Some user =>
        if bool_decide (jwt_role user ∈ requiredRoles)
        then Ok c
        else Err (HTTPException 403 "Acesso negado. Permissões insuficientes")
    end.

(** The chain [use(path, m1, m2, ...)]: each middleware runs on what the
    one before it left, and the first throw ends the request. *)
Fixpoint run_chain (ms : list Middleware) (c : Context) : result Context :=
  match ms with
  | [] => Ok c
  | m :: rest =>
      match m c with
      | Ok c' => run_chain rest c'
      | Err e => Err e
      end
  end.

(** The admin gate of the route tables. *)
Definition admin_gate : Middleware := roleMiddleware ["ADMIN"].

(** ** HTTP responses *)

Inductive Body (A : Type) : Type :=
  | Success (data : A) (msg : option string)
  | Failure (error : string)
  | Plain_error (error : string).
Arguments Success {A} data msg.
Arguments Failure {A} error.
Arguments Plain_error {A} error.

Record Response (A : Type) : Type := mkResponse {
  res_body : Body A;
  res_status : Z;
}.
Arguments mkResponse {A} res_body res_status.
Arguments res_body {A} r.
Arguments res_status {A} r.

(** The [catch] of every controller method:
    [{success: false, error: error.message || '...'}] with
    [error.status || 500]. *)
Definition error_response {A} (error : Error) : Response A :=
  mkResponse (Failure (str_or (message error) "Erro interno do servidor"))
             (match status error with
              | Some st => if decide (st = 0) then 500 else st
              | None => 500
              end).

(** A controller method never throws: its [try] covers the whole body. *)
Definition handler {A} (body : M (Response A)) : World -> Response A * World :=
  fun w =>
    match body w with
    | (Ok r, w') => (r, w')
    | (Err e, w') => (error_response e, w')
    end.

(** ** Orders: controller *)

Module PedidoController.

(** [create], on the body the schema has accepted. *)
Definition create (c : Context) (validatedData : CreatePedidoInput)
  : World -> Response Pedido * World :=
  handler (
    match userId <$> ctx_user c with
    | Some uid =>
        if decide (uid = 0)
        then ret (mkResponse (Plain_error "Usuário não autenticado") 401)
        else
          pedido <- PedidoService.createPedido validatedData ;;
          ret (mkResponse (Success pedido (Some "Pedido criado com sucesso")) 201)
    | None => ret (mkResponse (Plain_error "Usuário não autenticado") 401)
    end).

(** [getById], on the id the schema has parsed. *)
Definition getById (c : Context) (id : Z) : World -> Response Pedido * World :=
  handler (
    let uid := userId <$> ctx_user c in
    let userRole := jwt_role <$> ctx_user c in
    pedido <- PedidoService.getPedidoById id ;;
    if bool_decide (userRole ≠ Some "ADMIN")
       && bool_decide (Some (pedido_id pedido) ≠ uid)
    then ret (mkResponse (Plain_error "Acesso negado") 403)
    else ret (mkResponse (Success pedido None) 200)).

(** [list]: the [usuarioId] the controller adds for a caller that is
    not ['ADMIN'] is a property the repository never reads, so the
    service sees the validated query either way. *)
Definition list (c : Context) (validatedQuery : ListPedidosQuery)
  : World -> Response (list Pedido * Pagination) * World :=
  handler (
    r <- PedidoService.listPedidos validatedQuery ;;
    ret (mkResponse (Success r None) 200)).

Definition update (c : Context) (id : Z) (validatedData : UpdatePedidoInput)
  : World -> Response Pedido * World :=
  handler (
    pedido <- PedidoService.updatePedido id validatedData ;;
    ret (mkResponse (Success pedido (Some "Pedido atualizado com sucesso")) 200)).

Definition delete (c : Context) (id : Z) : World -> Response unit * World :=
  handler (
    PedidoService.deletePedido id ;;;
    ret (mkResponse (Success tt (Some "Pedido removido com sucesso")) 200)).

(** [updateStatus]: [st] is the [status] property of the body, [None]
    when it is missing. *)
Definition updateStatus (c : Context) (id : Z) (st : option string)
  : World -> Response Pedido * World :=
  handler (
    match st with
    | Some s =>
        if decide (s = "")
        then ret (mkResponse (Plain_error "Status é obrigatório") 400)
        else
          pedido <- PedidoService.updateStatus id s ;;
          ret (mkResponse
                 (Success pedido (Some "Status do pedido atualizado com sucesso"))
                 200)
    | None => ret (mkResponse (Plain_error "Status é obrigatório") 400)
    end).

End PedidoController.

(** ** Users: objects, validated inputs *)

(** The values of the properties of a user object. *)
Inductive jsval : Type :=
  | JNumber (z : Z)
  | JString (s : string)
  | JBoolean (b : bool).

(** The object the store client returns for a row of [usuarios]: one
    property per column. *)
Definition obj_of_usuario (u : Usuario) : gmap string jsval :=
  <["id" := JNumber (usuario_id u)]>
  (<["email" := JString (email u)]>
  (<["senha" := JString (senha u)]>
  (<["nome" := JString (nome u)]>
  (<["role" := JString (role u)]>
  (<["ativo" := JBoolean (ativo u)]>
  (<["criadoEm" := JNumber (usuario_criadoEm u)]>
  (<["atualizadoEm" := JNumber (usuario_atualizadoEm u)]> ∅))))))).

(** [const { senha, ...userWithoutPassword } = user]. *)
Definition userWithoutPassword (user : gmap string jsval) : gmap string jsval :=
  base.delete "senha" user.

(** [select: { k: true, ... }]: only the listed properties are read. *)
Definition select (keys : list string) (o : gmap string jsval) : gmap string jsval :=
  filter (fun kv => kv.1 ∈ keys) o.

(** [RegisterUserInput], the output of [registerUserSchema]. *)
Record RegisterUserInput : Type := mkRegisterUserInput {
  reg_nome : string;
  reg_email : string;
  reg_senha : string;
  reg_role : string;
}.

Record LoginUserInput : Type := mkLoginUserInput {
  login_email : string;
  login_senha : string;
}.

Record UpdateUserInput : Type := mkUpdateUserInput {
  upd_nome : option string;
  upd_email : option string;
  upd_senha : option string;
  upd_role : option string;
  upd_ativo : option bool;
}.

Record ChangePasswordInput : Type := mkChangePasswordInput {
  senhaAtual : string;
  novaSenha : string;
  confirmarSenha : string;
}.

(** The [role] field of [registerUserSchema]:
    [z.enum(['user', 'admin']).optional().default('user')]. *)
Definition registerUserSchema_role (r : option string) : option string :=
  match r with
  | None => Some "user"
  | Some s => if bool_decide (s ∈ ["user"; "admin"]) then Some s else None
  end.

(** The [role] field of [updateUserSchema]: the same enum, optional, no
    default.  The outer option is the outcome of the parse. *)
Definition updateUserSchema_role (r : option string) : option (option string) :=
  match r with
  | None => Some None
  | Some s => if bool_decide (s ∈ ["user"; "admin"]) then Some (Some s) else None
  end.

(** The body of a registration request; the string checks of the schema
    on [nome], [email] and [senha] belong to the validation engine and the
    body is taken to have passed them. *)
Record RegisterBody : Type := mkRegisterBody {
  body_nome : string;
  body_email : string;
  body_senha : string;
  body_role : option string;
}.

Definition registerUserSchema (b : RegisterBody) : option RegisterUserInput :=
  mkRegisterUserInput (body_nome b) (body_email b) (body_senha b)
    <$> registerUserSchema_role (body_role b).

(** ** Users: repository *)

Module UserRepository.

Definition rows (w : World) : list Usuario := (map_to_list (usuarios w)).*2.

(** The first row with this email, if any ([findUnique] on the unique
    column). *)
Definition by_email (e : string) (w : World) : option Usuario :=
  head (filter (fun u => email u = e) (rows w)).

(** The error of the store on a second row with the same email. *)
Definition unique_violation : Error :=
  new_Error "Unique constraint failed on the fields: (email)".

(** The row the store builds for an insert: [ativo] from the column
    default, the role the one given or ['user']. *)
Definition new_row (w : World) (data : RegisterUserInput) : Usuario :=
  mkUsuario (usuario_seq w + 1) (reg_email data) (reg_senha data)
            (reg_nome data) (str_or (reg_role data) "user") true
            (clock w) (clock w).

Definition create (data : RegisterUserInput) : M Usuario :=
  fun w =>
    match by_email (reg_email data) w with
    | Some _ => (Err unique_violation, w)
    | None =>
        let row := new_row w data in
        (Ok row,
         with_usuarios (<[usuario_id row := row]> (usuarios w)) (usuario_id row) w)
    end.

Definition findById (id : Z) : M (option Usuario) :=
  fun w => (Ok (usuarios w !! id), w).

Definition findByEmail (e : string) : M (option Usuario) :=
  fun w => (Ok (by_email e w), w).

Definition newer_first (a b : Usuario) : Prop :=
  usuario_criadoEm b ≤ usuario_criadoEm a.

Global Instance newer_first_dec a b : Decision (newer_first a b).
Proof. unfold newer_first. apply _. Defined.

Definition selected_keys : list string :=
  ["id"; "nome"; "email"; "role"; "ativo"; "criadoEm"; "atualizadoEm"].

Definition active (w : World) : list Usuario :=
  filter (fun u => ativo u = true) (rows w).

Definition findMany (page limit : Z) : M (list (gmap string jsval) * Z) :=
  fun w =>
    let skip := (page - 1) * limit in
    let found :=
      take (Z.to_nat limit)
           (drop (Z.to_nat skip) (merge_sort newer_first (active w))) in
    (Ok (select selected_keys ∘ obj_of_usuario <$> found,
         Z.of_nat (length (active w))), w).

Definition patch (data : UpdateUserInput) (u : Usuario) : Usuario :=
  mkUsuario (usuario_id u)
            (default (email u) (upd_email data))
            (default (senha u) (upd_senha data))
            (default (nome u) (upd_nome data))
            (default (role u) (upd_role data))
            (default (ativo u) (upd_ativo data))
            (usuario_criadoEm u) (usuario_atualizadoEm u).

(** Another row already holds the email of the patch. *)
Definition email_taken (id : Z) (data : UpdateUserInput) (w : World) : bool :=
  match upd_email data with
  | Some e =>
      bool_decide (Exists (fun u => email u = e ∧ usuario_id u ≠ id) (rows w))
  | None => false
  end.

(** The store rejects a missing row and a duplicate email; the [catch]
    turns both into [null]. *)
Definition update (id : Z) (data : UpdateUserInput) : M (option Usuario) :=
  fun w =>
    match usuarios w !! id with
    | Some u =>
        if email_taken id data w then (Ok None, w)
        else
          let u' := patch data u in
          (Ok (Some u'),
           with_usuarios (<[id := u']> (usuarios w)) (usuario_seq w) w)
    | None => (Ok None, w)
    end.

Definition updatePassword (id : Z) (hashedPassword : string) : M bool :=
  r <- update id (mkUpdateUserInput None None (Some hashedPassword) None None) ;;
  ret (bool_decide (is_Some r)).

Definition deactivate (id : Z) : M bool :=
  r <- update id (mkUpdateUserInput None None None None (Some false)) ;;
  ret (bool_decide (is_Some r)).

(** [emailExists]: an [excludeId] of [0] is falsy and excludes
    nothing. *)
Definition emailExists (e : string) (excludeId : option Z) : M bool :=
  fun w =>
    let keep (u : Usuario) : bool :=
      bool_decide (email u = e) &&
      match excludeId with
      | Some x => bool_decide (x = 0) || bool_decide (usuario_id u ≠ x)
      | None => true
      end in
    (Ok (existsb keep (rows w)), w).

End UserRepository.

(** ** Users: service *)

Module UserService.
Section WithPrimitives.
Context `{Primitives}.

Definition payload_of (user : Usuario) : JwtPayload :=
  mkJwtPayload (usuario_id user) (email user) (role user).

Definition register (data : RegisterUserInput) (env : Env) (now : Z)
  : M (gmap string jsval * string) :=
  existingUser <- UserRepository.findByEmail (reg_email data) ;;
  match existingUser with
  | Some _ => throw (new_Error "Email já está em uso")
  | None =>
      let hashedPassword := hashPassword (reg_senha data) env in
      user <- UserRepository.create
                (mkRegisterUserInput (reg_nome data) (reg_email data)
                                     hashedPassword (reg_role data)) ;;
      let token := generateToken (payload_of user) env now in
      ret (userWithoutPassword (obj_of_usuario user), token)
  end.

Definition login (data : LoginUserInput) (env : Env) (now : Z)
  : M (gmap string jsval * string) :=
  found <- UserRepository.findByEmail (login_email data) ;;
  match found with
  | None => throw (new_Error "Credenciais inválidas")
  | Some user =>
      if negb (ativo user) then throw (new_Error "Credenciais inválidas")
      else
        if negb (comparePassword (login_senha data) (senha user))
        then throw (new_Error "Credenciais inválidas")
        else
          let token := generateToken (payload_of user) env now in
          ret (userWithoutPassword (obj_of_usuario user), token)
  end.

Definition getUserById (id : Z) : M (gmap string jsval) :=
  found <- UserRepository.findById id ;;
  match found with
  | None => throw (new_Error "Usuário não encontrado")
  | Some user =>
      if negb (ativo user) then throw (new_Error "Usuário não encontrado")
      else ret (userWithoutPassword (obj_of_usuario user))
  end.

Definition listUsers (page limit : Z)
  : M (list (gmap string jsval) * Pagination) :=
  r <- UserRepository.findMany page limit ;;
  let '(found, total) := r in
  let tp := Math_ceil (num_div total limit) in
  ret (found,
       mkPagination page limit total tp
                    (num_ltb (num_of_Z page) tp)
                    (bool_decide (1 < page))).

(** A property of the patch that is present and truthy. *)
Definition truthy (s : option string) : option string :=
  match s with
  | Some x => if decide (x = "") then None else Some x
  | None => None
  end.

Definition updateUser (id : Z) (data : UpdateUserInput) (env : Env)
  : M (gmap string jsval) :=
  getUserById id ;;;
  (match truthy (upd_email data) with
   | Some e =>
       emailExists <- UserRepository.emailExists e (Some id) ;;
       if (emailExists : bool) then throw (new_Error "Email já está em uso")
       else ret tt
   | None => ret tt
   end) ;;;
  let updateData :=
    match truthy (upd_senha data) with
    | Some s =>
        mkUpdateUserInput (upd_nome data) (upd_email data)
                          (Some (hashPassword s env))
                          (upd_role data) (upd_ativo data)
    | None => data
    end in
  updatedUser <- UserRepository.update id updateData ;;
  match updatedUser with
  | None => throw (new_Error "Erro ao atualizar usuário")
  | Some u => ret (userWithoutPassword (obj_of_usuario u))
  end.

Definition changePassword (uid : Z) (data : ChangePasswordInput) (env : Env)
  : M unit :=
  found <- UserRepository.findById uid ;;
  match found with
  | None => throw (new_Error "Usuário não encontrado")
  | Some user =>
      if negb (ativo user) then throw (new_Error "Usuário não encontrado")
      else
        if negb (comparePassword (senhaAtual data) (senha user))
        then throw (new_Error "Senha atual incorreta")
        else
          let hashedNewPassword := hashPassword (novaSenha data) env in
          updated <- UserRepository.updatePassword uid hashedNewPassword ;;
          if (updated : bool) then ret tt
          else throw (new_Error "Erro ao alterar senha")
  end.

Definition deactivateUser (id : Z) : M unit :=
  getUserById id ;;;
  deactivated <- UserRepository.deactivate id ;;
  if (deactivated : bool) then ret tt
  else throw (new_Error "Erro ao desativar usuário").

End WithPrimitives.
End UserService.

(** ** Files: service (upload path) *)

Record File : Type := mkFile {
  file_name : string;
  file_size : Z;
  file_type : string;
  file_stream : list Z;
}.

Record FileUploadOptions : Type := mkFileUploadOptions {
  maxSize : number;
  allowedTypes : list string;
  generateUniqueKey : option bool;
}.

(** [UploadedFile]; a property read from a column the table does not
    have is [undefined], here [None]. *)
Record UploadedFile : Type := mkUploadedFile {
  up_id : Z;
  up_nomeOriginal : option string;
  up_nomeArquivo : option string;
  up_tamanho : Z;
  up_tipo : string;
  up_url : string;
  up_usuarioId : option string;
  up_criadoEm : Z;
}.

(** The double-quote character, as a string. *)
Definition dquote : string := String (ascii_of_nat 34) EmptyString.

(** [s.split(sep)] for a one-character separator. *)
Fixpoint split_on (sep : ascii) (cur : string) (s : string) : list string :=
  match s with
  | EmptyString => [cur]
  | String c r =>
      if decide (c = sep) then cur :: split_on sep "" r
      else split_on sep (cur +:+ String c "") r
  end.

(** [arr.join(sep)]. *)
Fixpoint join (sep : string) (l : list string) : string :=
  match l with
  | [] => ""
  | [x] => x
  | x :: rest => x +:+ sep +:+ join sep rest
  end.

Module FileService.
Section WithFormat.

(** [formatFileSize] rounds logarithms and powers in floating point; it
    only feeds the text of an error message and is taken as given. *)
Variable formatFileSize : number -> string.

(** The address the service was built with. *)
Variable baseUrl : string.

Definition validateFile (file : File) (options : FileUploadOptions) : result unit :=
  if num_gtb (num_of_Z (file_size file)) (maxSize options)
  then Err (new_Error ("Arquivo muito grande. Tamanho máximo: "
                       +:+ formatFileSize (maxSize options)))
  else if negb (bool_decide (file_type file ∈ allowedTypes options))
  then Err (new_Error ("Tipo de arquivo não permitido. Tipos aceitos: "
                       +:+ join ", " (allowedTypes options)))
  else if decide (file_size file = 0)
  then Err (new_Error "Arquivo está vazio")
  else Ok tt.

(** [timestamp] is [Date.now()] and [random] the base-36 digits drawn
    for this call. *)
Definition generateFileKey (originalName uid : string) (timestamp : Z)
                           (random : string) : string :=
  let extension := default "" (last (split_on "." "" originalName)) in
  "uploads/" +:+ uid +:+ "/" +:+ pretty timestamp +:+ "-" +:+ random
             +:+ "." +:+ extension.

Definition r2_put (key : string) (o : R2Object) : M unit :=
  fun w => (Ok tt, with_bucket (<[key := o]> (bucket w)) w).

Definition arquivo_create (nm : string) (size : Z) (tp url : string) : M Arquivo :=
  fun w =>
    let row := mkArquivo (arquivo_seq w + 1) nm url tp size (clock w) in
    (Ok row,
     with_arquivos (<[arquivo_id row := row]> (arquivos w)) (arquivo_id row) w).

Definition uploadFile (file : File) (uid : string) (options : FileUploadOptions)
                      (timestamp : Z) (random : string) : M UploadedFile :=
  try_catch (
    (fun w => (validateFile file options, w)) ;;;
    let fileKey :=
      if bool_decide (generateUniqueKey options ≠ Some false)
      then generateFileKey (file_name file) uid timestamp random
      else "uploads/" +:+ uid +:+ "/" +:+ file_name file in
    r2_put fileKey
           (mkR2Object (file_stream file) (file_type file)
                       ("attachment; filename=" +:+ dquote +:+ file_name file
                                                +:+ dquote)
                       (file_name file) uid timestamp) ;;;
    arquivo <- arquivo_create fileKey (file_size file) (file_type file)
                              (baseUrl +:+ "/files/" +:+ fileKey) ;;
    ret (mkUploadedFile (arquivo_id arquivo) None None
                        (arquivo_tamanho arquivo) (arquivo_tipo arquivo)
                        (arquivo_url arquivo) None (arquivo_criadoEm arquivo)))
    (fun error => throw (new_Error ("Erro no upload: " +:+ message error))).

(** [uploadMultipleFiles]: every upload is started, whatever becomes of
    the others; the call fails with the first failure. *)
Fixpoint upload_each (files : list (File * string)) (uid : string)
                     (options : FileUploadOptions) (timestamp : Z)
  : World -> list (result UploadedFile) * World :=
  fun w =>
    match files with
    | [] => ([], w)
    | (f, random) :: rest =>
        let '(r, w1) := uploadFile f uid options timestamp random w in
        let '(rs, w2) := upload_each rest uid options timestamp w1 in
        (r :: rs, w2)
    end.

Fixpoint all_results (rs : list (result UploadedFile)) : result (list UploadedFile) :=
  match rs with
  | [] => Ok []
  | Ok u :: rest =>
      match all_results rest with
      | Ok us => Ok (u :: us)
      | Err e => Err e
      end
  | Err e :: _ => Err e
  end.

Definition uploadMultipleFiles (files : list (File * string)) (uid : string)
                               (options : FileUploadOptions) (timestamp : Z)
  : M (list UploadedFile) :=
  fun w =>
    let '(rs, w') := upload_each files uid options timestamp w in
    match all_results rs with
    | Ok us => (Ok us, w')
    | Err e => (Err (new_Error ("Erro no upload múltiplo: " +:+ message e)), w')
    end.

End WithFormat.
End FileService.

(** The options the controller builds from the bindings. *)
Definition upload_options (env : Env) : FileUploadOptions :=
  mkFileUploadOptions
    (match parseInt (str_or (MAX_FILE_SIZE env) "10485760") with
     | Some n => num_of_Z n
     | None => NaN
     end)
    (split_on "," ""
       (str_or (ALLOWED_FILE_TYPES env)
               "image/jpeg,image/png,image/gif,application/pdf"))
    (Some true).

(** ** Users: controller *)

(** The methods of [UserController], each on the input its schema has
    accepted; [list], which feeds [parseInt] of the raw query to the
    service, is left out. *)
Module UserController.
Section WithPrimitives.
Context `{Primitives}.

Definition register (c : Context) (validatedData : RegisterUserInput)
  : World -> Response (gmap string jsval * string) * World :=
  handler (
    r <- UserService.register validatedData (ctx_env c) (ctx_now c) ;;
    ret (mkResponse (Success r (Some "Usuário registrado com sucesso")) 201)).

Definition login (c : Context) (validatedData : LoginUserInput)
  : World -> Response (gmap string jsval * string) * World :=
  handler (
    r <- UserService.login validatedData (ctx_env c) (ctx_now c) ;;
    ret (mkResponse (Success r (Some "Login realizado com sucesso")) 200)).

Definition getProfile (c : Context)
  : World -> Response (gmap string jsval) * World :=
  handler (
    match userId <$> ctx_user c with
    | Some uid =>
        if decide (uid = 0)
        then ret (mkResponse (Plain_error "Usuário não autenticado") 401)
        else
          user <- UserService.getUserById uid ;;
          ret (mkResponse (Success user None) 200)
    | None => ret (mkResponse (Plain_error "Usuário não autenticado") 401)
    end).

Definition getById (c : Context) (id : Z)
  : World -> Response (gmap string jsval) * World :=
  handler (
    user <- UserService.getUserById id ;;
    ret (mkResponse (Success user None) 200)).

Definition update (c : Context) (id : Z) (validatedData : UpdateUserInput)
  : World -> Response (gmap string jsval) * World :=
  handler (
    let currentUserId := userId <$> ctx_user c in
    let userRole := jwt_role <$> ctx_user c in
    if bool_decide (userRole ≠ Some "ADMIN")
       && bool_decide (currentUserId ≠ Some id)
    then ret (mkResponse (Plain_error "Acesso negado") 403)
    else
      user <- UserService.updateUser id validatedData (ctx_env c) ;;
      ret (mkResponse (Success user (Some "Usuário atualizado com sucesso")) 200)).

Definition changePassword (c : Context) (id : Z)
                          (validatedData : ChangePasswordInput)
  : World -> Response unit * World :=
  handler (
    let currentUserId := userId <$> ctx_user c in
    let userRole := jwt_role <$> ctx_user c in
    if bool_decide (userRole ≠ Some "ADMIN")
       && bool_decide (currentUserId ≠ Some id)
    then ret (mkResponse (Plain_error "Acesso negado") 403)
    else
      UserService.changePassword id validatedData (ctx_env c) ;;;
      ret (mkResponse (Success tt (Some "Senha alterada com sucesso")) 200)).

Definition deactivate (c : Context) (id : Z) : World -> Response unit * World :=
  handler (
    let currentUserId := userId <$> ctx_user c in
    if bool_decide (currentUserId = Some id)
    then ret (mkResponse
                (Plain_error "Não é possível desativar sua própria conta") 400)
    else
      UserService.deactivateUser id ;;;
      ret (mkResponse (Success tt (Some "Usuário desativado com sucesso")) 200)).

Definition activate (c : Context) (id : Z)
  : World -> Response (gmap string jsval) * World :=
  handler (
    user <- UserService.updateUser id
              (mkUpdateUserInput None None None None (Some true)) (ctx_env c) ;;
    ret (mkResponse (Success user (Some "Usuário ativado com sucesso")) 200)).

End WithPrimitives.
End UserController.

(** ** Files: controller *)

(** [uploadFile] of [FileController], on the file of the form, if any;
    the caller's id, written in decimal, is the folder of the key. *)
Module FileController.
Section WithFormat.
Variable formatFileSize : number -> string.
Variable baseUrl : string.

Definition uploadFile (c : Context) (file : option File) (timestamp : Z)
                      (random : string)
  : World -> Response UploadedFile * World :=
  handler (
    match userId <$> ctx_user c with
    | Some uid =>
        if decide (uid = 0)
        then ret (mkResponse (Plain_error "Usuário não autenticado") 401)
        else
          match file with
          | None => ret (mkResponse (Plain_error "Nenhum arquivo enviado") 400)
          | Some f =>
              uploadedFile <-
                FileService.uploadFile formatFileSize baseUrl f (pretty uid)
                                       (upload_options (ctx_env c))
                                       timestamp random ;;
              ret (mkResponse
                     (Success uploadedFile (Some "Arquivo enviado com sucesso"))
                     201)
          end
    | None => ret (mkResponse (Plain_error "Usuário não autenticado") 401)
    end).

End WithFormat.
End FileController.

(** * Properties *)

(** Unfolding of the monad operations. *)
Ltac run :=
  unfold bind, ret, throw, try_catch, handler in *;
  simpl in *.

(** ** Numbers *)

Lemma num_gtb_not_leb (x : number) :
  num_gtb x (num_of_Z 0) = true -> num_leb x (num_of_Z 0) = false.
Proof.
  destruct x as [| | |q]; simpl; try discriminate; try reflexivity.
  intros Hq. by apply negb_true_iff in Hq.
Qed.

(** ** Orders *)

(** Rows carry their key, and the counter of the table bounds the keys. *)
Definition wf_pedidos (w : World) : Prop :=
  forall id p, pedidos w !! id = Some p -> pedido_id p = id /\ id <= pedido_seq w.

Lemma wf_pedidos_empty : wf_pedidos empty_world.
Proof. intros id p Hp. simpl in Hp. by rewrite lookup_empty in Hp. Qed.

Lemma wf_pedidos_create (data : CreatePedidoInput) (w : World) :
  wf_pedidos w -> wf_pedidos (PedidoRepository.create data w).2.
Proof.
  intros Hwf id p. simpl.
  rewrite lookup_insert. case_decide as Hid.
  - intros [= <-]. simpl. split; [done | lia].
  - intros Hp. destruct (Hwf id p Hp) as [? ?]. split; [done | lia].
Qed.

Lemma wf_pedidos_fresh (w : World) :
  wf_pedidos w -> pedidos w !! (pedido_seq w + 1) = None.
Proof.
  intros Hwf. destruct (pedidos w !! (pedido_seq w + 1)) as [p|] eqn:Hp; [|done].
  destruct (Hwf _ _ Hp) as [_ ?]. lia.
Qed.

(** C4. [createPedido] rejects a price that is at most zero with the
    domain error and writes nothing; for a price above zero it succeeds,
    and the order it persists and returns has status ['pendente'], the
    fields of the input, and an id no earlier order has. *)
Theorem createPedido_price_rule (data : CreatePedidoInput) (w : World) :
  (num_leb (create_preco data) (num_of_Z 0) = true ->
   PedidoService.createPedido data w
   = (Err (new_Error "Preço deve ser maior que zero"), w))
  /\
  (num_gtb (create_preco data) (num_of_Z 0) = true ->
   exists p w',
     PedidoService.createPedido data w = (Ok p, w')
     /\ pedidos w' !! pedido_id p = Some p
     /\ pedido_status p = "pendente"
     /\ preco p = create_preco data
     /\ cliente p = create_cliente data
     /\ (wf_pedidos w -> pedidos w !! pedido_id p = None)
     /\ (forall j, j <> pedido_id p -> pedidos w' !! j = pedidos w !! j)).
Proof.
  split; intros Hprice; unfold PedidoService.createPedido.
  - by rewrite Hprice.
  - rewrite (num_gtb_not_leb _ Hprice).
    eexists _, _. split; [reflexivity|]. simpl.
    repeat split.
    + by rewrite lookup_insert_eq.
    + apply wf_pedidos_fresh.
    + intros j Hj. by rewrite lookup_insert_ne.
Qed.

Definition marmita : CreatePedidoInput :=
  mkCreatePedidoInput "Ana" TamM None (Fin (25 # 2)%Q).

Definition marmita_gratis : CreatePedidoInput :=
  mkCreatePedidoInput "Ana" TamM None (Fin 0%Q).

Lemma createPedido_price_rule_witness :
  PedidoService.createPedido marmita_gratis empty_world
  = (Err (new_Error "Preço deve ser maior que zero"), empty_world)
  /\
  exists p w',
    PedidoService.createPedido marmita empty_world = (Ok p, w')
    /\ pedidos w' !! pedido_id p = Some p
    /\ pedido_status p = "pendente"
    /\ preco p = create_preco marmita
    /\ cliente p = create_cliente marmita
    /\ (wf_pedidos empty_world -> pedidos empty_world !! pedido_id p = None)
    /\ (forall j, j <> pedido_id p -> pedidos w' !! j = pedidos empty_world !! j).
Proof.
  split.
  - apply (proj1 (createPedido_price_rule marmita_gratis empty_world)).
    reflexivity.
  - apply (proj2 (createPedido_price_rule marmita empty_world)).
    reflexivity.
Defined.

(** C3. For an order that exists, [deletePedido] fails exactly when its
    status is ['entregue']; then the store is left as it was, and
    otherwise the order, and only it, is removed.  For an id with no order
    it fails with the not-found error. *)
Theorem deletePedido_iff_entregue (id : Z) (w : World) :
  (forall p, pedidos w !! id = Some p ->
     (is_Ok (PedidoService.deletePedido id w).1 = false
      <-> pedido_status p = "entregue")
     /\ (pedido_status p = "entregue" ->
         PedidoService.deletePedido id w
         = (Err (new_Error "Não é possível deletar pedidos já entregues"), w))
     /\ (pedido_status p <> "entregue" ->
         exists w',
           PedidoService.deletePedido id w = (Ok tt, w')
           /\ pedidos w' !! id = None
           /\ (forall j, j <> id -> pedidos w' !! j = pedidos w !! j)))
  /\
  (pedidos w !! id = None ->
   PedidoService.deletePedido id w
   = (Err (new_Error "Pedido não encontrado"), w)).
Proof.
  unfold PedidoService.deletePedido, PedidoService.getPedidoById,
    PedidoRepository.findById, PedidoRepository.delete.
  split.
  - intros p Hp. run. rewrite Hp. simpl.
    destruct (decide (pedido_status p = "entregue")) as [He|Hne]; simpl.
    + split; [done|]. split; [done|]. intros Hne. by destruct Hne.
    + rewrite Hp. simpl. split; [split; [discriminate | done]|].
      split; [done|]. intros _.
      eexists. split; [reflexivity|]. simpl. split.
      * by rewrite lookup_delete_eq.
      * intros j Hj. by rewrite lookup_delete_ne.
  - intros Hnone. run. by rewrite Hnone.
Qed.

Definition marmita_entregue : Pedido :=
  mkPedido 1 "Ana" TamM None (Fin (25 # 2)%Q) "entregue" 0 0.

Definition marmita_pendente : Pedido :=
  mkPedido 1 "Ana" TamM None (Fin (25 # 2)%Q) "pendente" 0 0.

(** The store after one order was created and delivered. *)
Definition world_entregue : World :=
  with_pedidos {[ 1 := marmita_entregue ]} 1 empty_world.

Lemma deletePedido_iff_entregue_witness :
  PedidoService.deletePedido 1 world_entregue
  = (Err (new_Error "Não é possível deletar pedidos já entregues"), world_entregue)
  /\ PedidoService.deletePedido 2 world_entregue
     = (Err (new_Error "Pedido não encontrado"), world_entregue).
Proof.
  split.
  - apply (proj1 (deletePedido_iff_entregue 1 world_entregue) marmita_entregue);
      reflexivity.
  - apply (proj2 (deletePedido_iff_entregue 2 world_entregue)). reflexivity.
Defined.

(** The status an order has in a store. *)
Definition status_of (id : Z) (w : World) : option string :=
  pedido_status <$> pedidos w !! id.

(** The rule of the specification: the status of an order that is
    delivered or cancelled is the same after [updateStatus] and after
    [updatePedido], whatever they are called with. *)
Definition terminal_states_final : Prop :=
  forall (w : World) (id : Z) (p : Pedido) (st : string) (data : UpdatePedidoInput),
    pedidos w !! id = Some p ->
    pedido_status p = "entregue" \/ pedido_status p = "cancelado" ->
    status_of id (PedidoService.updateStatus id st w).2 = Some (pedido_status p)
    /\ status_of id (PedidoService.updatePedido id data w).2
       = Some (pedido_status p).

(** C2, against the specification.  A delivered order is moved back to
    ['pendente'] by [updateStatus], and to ['preparando'] by
    [updatePedido] with a patch that carries a status: the terminal state
    has outgoing transitions. *)
Lemma entregue_is_left :
  status_of 1 world_entregue = Some "entregue"
  /\ (PedidoService.updateStatus 1 "pendente" world_entregue).1
     = Ok marmita_pendente
  /\ status_of 1 (PedidoService.updateStatus 1 "pendente" world_entregue).2
     = Some "pendente"
  /\ status_of 1
       (PedidoService.updatePedido 1 (only_status "preparando") world_entregue).2
     = Some "preparando"
  /\ ~ terminal_states_final.
Proof.
  repeat split; try (vm_compute; reflexivity).
  intros Hfinal.
  destruct (Hfinal world_entregue 1 marmita_entregue "pendente"
              (only_status "preparando") eq_refl (or_introl eq_refl))
    as [Hst _].
  vm_compute in Hst. discriminate.
Qed.

(** The price of a patch passes the rule of the service: it is absent, or
    it is not at most zero. *)
Definition price_passes (data : UpdatePedidoInput) : Prop :=
  match upd_preco data with
  | Some pr => num_leb pr (num_of_Z 0) = false
  | None => True
  end.

Lemma updatePedido_existing (id : Z) (data : UpdatePedidoInput) (w : World)
                            (p : Pedido) :
  pedidos w !! id = Some p ->
  price_passes data ->
  PedidoService.updatePedido id data w
  = (Ok (PedidoRepository.patch data p),
     with_pedidos (<[id := PedidoRepository.patch data p]> (pedidos w))
                  (pedido_seq w) w).
Proof.
  intros Hp Hprice.
  unfold PedidoService.updatePedido, PedidoService.getPedidoById,
    PedidoRepository.findById, PedidoRepository.update.
  run. rewrite Hp. simpl.
  unfold price_passes in Hprice.
  destruct (upd_preco data) as [pr|]; [rewrite Hprice|]; simpl;
    by rewrite Hp.
Qed.

(** C2, as the code has it.  The service has no transition rule.  For an
    order that exists, whatever its status: [updateStatus] with one of the
    five status values succeeds, returns the order with that status and
    stores it, leaving the other orders alone, and a value outside the
    five is rejected with nothing written; [updatePedido] with a patch
    whose price passes stores the patched order, so a status in the patch
    becomes the status of the order. *)
Theorem update_has_no_transition_rule (id : Z) (w : World) (p : Pedido) :
  pedidos w !! id = Some p ->
  (forall st, st ∈ PedidoService.validStatuses ->
     exists p' w',
       PedidoService.updateStatus id st w = (Ok p', w')
       /\ pedidos w' !! id = Some p'
       /\ pedido_status p' = st
       /\ p' = PedidoRepository.patch (only_status st) p
       /\ (forall j, j <> id -> pedidos w' !! j = pedidos w !! j))
  /\
  (forall st, st ∉ PedidoService.validStatuses ->
     PedidoService.updateStatus id st w = (Err (new_Error "Status inválido"), w))
  /\
  (forall data, price_passes data ->
     exists p' w',
       PedidoService.updatePedido id data w = (Ok p', w')
       /\ pedidos w' !! id = Some p'
       /\ p' = PedidoRepository.patch data p
       /\ (forall st, upd_status data = Some st -> pedido_status p' = st)
       /\ (forall j, j <> id -> pedidos w' !! j = pedidos w !! j)).
Proof.
  intros Hp. split; [|split].
  - intros st Hst. unfold PedidoService.updateStatus.
    rewrite bool_decide_eq_true_2 by done.
    rewrite (updatePedido_existing id (only_status st) w p Hp) by done.
    eexists _, _. split; [reflexivity|]. simpl. repeat split.
    + by rewrite lookup_insert_eq.
    + intros j Hj. by rewrite lookup_insert_ne.
  - intros st Hst. unfold PedidoService.updateStatus.
    by rewrite bool_decide_eq_false_2.
  - intros data Hprice.
    rewrite (updatePedido_existing id data w p Hp Hprice).
    eexists _, _. split; [reflexivity|]. simpl. repeat split.
    + by rewrite lookup_insert_eq.
    + intros st Hst. by rewrite Hst.
    + intros j Hj. by rewrite lookup_insert_ne.
Qed.

Lemma update_has_no_transition_rule_witness :
  (exists p' w',
     PedidoService.updateStatus 1 "pendente" world_entregue = (Ok p', w')
     /\ pedidos w' !! 1 = Some p'
     /\ pedido_status p' = "pendente"
     /\ p' = PedidoRepository.patch (only_status "pendente") marmita_entregue
     /\ (forall j, j <> 1 -> pedidos w' !! j = pedidos world_entregue !! j))
  /\
  PedidoService.updateStatus 1 "devolvido" world_entregue
  = (Err (new_Error "Status inválido"), world_entregue).
Proof.
  split.
  - apply (proj1 (update_has_no_transition_rule 1 world_entregue
                    marmita_entregue eq_refl)).
    apply (bool_decide_unpack _). reflexivity.
  - apply (proj1 (proj2 (update_has_no_transition_rule 1 world_entregue
                           marmita_entregue eq_refl))).
    apply (bool_decide_unpack _). reflexivity.
Defined.

(** ** Orders: who may read an order *)

Definition test_env : Env := mkEnv "segredo" "" "" "" "".

(** A request whose token decoded to [user]. *)
Definition request_of (user : JwtPayload) : Context :=
  mkContext None (Some user) test_env 0.

Definition ana : JwtPayload := mkJwtPayload 1 "ana@x.com" "user".
Definition bia : JwtPayload := mkJwtPayload 2 "bia@x.com" "user".
Definition chefe : JwtPayload := mkJwtPayload 3 "chefe@x.com" "admin".

(** Ana creates two orders; they get the ids 1 and 2. *)
Definition world_ana_orders : World :=
  (PedidoController.create (request_of ana) marmita
     (PedidoController.create (request_of ana) marmita empty_world).2).2.

(** What [getById] decides for an order that exists: the caller is
    refused unless the role is the string ['ADMIN'] or the id of the
    order equals the id of the caller. *)
Lemma getById_decision (c : Context) (id : Z) (w : World) (p : Pedido) :
  pedidos w !! id = Some p ->
  PedidoController.getById c id w
  = (if bool_decide (jwt_role <$> ctx_user c ≠ Some "ADMIN")
        && bool_decide (Some (pedido_id p) ≠ userId <$> ctx_user c)
     then mkResponse (Plain_error "Acesso negado") 403
     else mkResponse (Success p None) 200, w).
Proof.
  intros Hp. unfold PedidoController.getById, PedidoService.getPedidoById,
    PedidoRepository.findById. run. rewrite Hp. simpl.
  by destruct (_ && _).
Qed.

(** C1, on the code.  After Ana has created the orders 1 and 2, Bia, who
    is not an admin and created neither, reads order 2 with status 200;
    Ana herself is refused her own order 2; and a caller whose role is
    ['admin'], as the system issues it, is refused order 1. *)
Theorem getById_compares_order_id_with_caller :
  (exists p,
     pedidos world_ana_orders !! 2 = Some p
     /\ (PedidoController.getById (request_of bia) 2 world_ana_orders).1
        = mkResponse (Success p None) 200)
  /\ (PedidoController.getById (request_of ana) 2 world_ana_orders).1
     = mkResponse (Plain_error "Acesso negado") 403
  /\ (PedidoController.getById (request_of chefe) 1 world_ana_orders).1
     = mkResponse (Plain_error "Acesso negado") 403.
Proof.
  split; [|split].
  - eexists. split; vm_compute; reflexivity.
  - vm_compute. reflexivity.
  - vm_compute. reflexivity.
Qed.

(** ** Orders: pagination *)



Lemma num_ltb_of_Z (a b : Z) :
  num_ltb (num_of_Z a) (num_of_Z b) = bool_decide (a < b).
Proof.
  unfold num_of_Z, num_ltb, Qle_bool, inject_Z. simpl.
  rewrite !Z.mul_1_r.
  destruct (Z.leb_spec b a); simpl.
  - by rewrite bool_decide_eq_false_2 by lia.
  - by rewrite bool_decide_eq_true_2 by lia.
Qed.







(** ** Users *)

Definition invalid_credentials : Error := new_Error "Credenciais inválidas".

(** The roles the schemas let through. *)
Definition issued_role (r : string) : Prop := r = "user" \/ r = "admin".

(** Every stored user has a role the schemas let through. *)
Definition issued_roles (w : World) : Prop :=
  forall id u, usuarios w !! id = Some u -> issued_role (role u).

(** Rows carry their key, and the counter of the table bounds the keys. *)
Definition wf_usuarios (w : World) : Prop :=
  forall id u, usuarios w !! id = Some u -> usuario_id u = id /\ id <= usuario_seq w.

Lemma by_email_stored (e : string) (w : World) (u : Usuario) :
  UserRepository.by_email e w = Some u ->
  email u = e /\ exists id, usuarios w !! id = Some u.
Proof.
  unfold UserRepository.by_email, UserRepository.rows. intros Hhead.
  apply head_Some_elem_of in Hhead.
  apply list_elem_of_filter in Hhead as [He Hin].
  split; [done|].
  apply list_elem_of_fmap in Hin as [[id u'] [-> Hin]].
  exists id. by apply elem_of_map_to_list.
Qed.

Lemma by_email_None (e : string) (w : World) (id : Z) (u : Usuario) :
  UserRepository.by_email e w = None -> usuarios w !! id = Some u -> email u <> e.
Proof.
  unfold UserRepository.by_email, UserRepository.rows. intros Hhead Hu He.
  apply head_None in Hhead.
  assert (Hin : u ∈ filter (fun u => email u = e) (map_to_list (usuarios w)).*2).
  { apply list_elem_of_filter. split; [done|].
    apply list_elem_of_fmap. exists (id, u). split; [done|].
    by apply elem_of_map_to_list. }
  rewrite Hhead in Hin. by apply elem_of_nil in Hin.
Qed.

Lemma obj_of_usuario_senha (u : Usuario) :
  obj_of_usuario u !! "senha" = Some (JString (senha u)).
Proof. unfold obj_of_usuario. by simplify_map_eq. Qed.

Lemma userWithoutPassword_senha (o : gmap string jsval) :
  userWithoutPassword o !! "senha" = None.
Proof. apply lookup_delete_eq. Qed.

Lemma userWithoutPassword_keeps (u : Usuario) :
  userWithoutPassword (obj_of_usuario u) !! "email" = Some (JString (email u))
  /\ userWithoutPassword (obj_of_usuario u) !! "role" = Some (JString (role u))
  /\ userWithoutPassword (obj_of_usuario u) !! "id" = Some (JNumber (usuario_id u)).
Proof.
  unfold userWithoutPassword, obj_of_usuario.
  repeat split; by simplify_map_eq.
Qed.

Lemma select_senha (o : gmap string jsval) :
  select UserRepository.selected_keys o !! "senha" = None.
Proof.
  unfold select. apply map_lookup_filter_None. right.
  intros x _ Hin. simpl in Hin. unfold UserRepository.selected_keys in Hin.
  repeat (apply elem_of_cons in Hin as [Hin|Hin]; [discriminate|]).
  by apply elem_of_nil in Hin.
Qed.

Section UserProperties.
Context `{Primitives}.

(** C5. [login] fails with the one error ['Credenciais inválidas'], and
    writes nothing, when no user has the email, when the user is not
    active, and when the password does not compare with the stored hash;
    in the remaining case it returns the view of the user and a token
    signed at the time of the call. *)
Theorem login_generic_failure (data : LoginUserInput) (env : Env) (now : Z)
                              (w : World) :
  (UserRepository.by_email (login_email data) w = None ->
   UserService.login data env now w = (Err invalid_credentials, w))
  /\
  (forall u, UserRepository.by_email (login_email data) w = Some u ->
     (ativo u = false ->
      UserService.login data env now w = (Err invalid_credentials, w))
     /\ (comparePassword (login_senha data) (senha u) = false ->
         UserService.login data env now w = (Err invalid_credentials, w))
     /\ (ativo u = true ->
         comparePassword (login_senha data) (senha u) = true ->
         UserService.login data env now w
         = (Ok (userWithoutPassword (obj_of_usuario u),
                generateToken (UserService.payload_of u) env now), w))).
Proof.
  unfold UserService.login, UserRepository.findByEmail. run. split.
  - by intros ->.
  - intros u ->. simpl. repeat split.
    + by intros ->.
    + intros ->. by destruct (ativo u).
    + by intros -> ->.
Qed.

(** C6. For an input whose email no stored user has, [register]
    persists a new user that is active, whose role is the one of the
    input and ['user'] when the input has none, and whose stored password
    is the hash. *)
Theorem register_persists_active_user (data : RegisterUserInput) (env : Env)
                                      (now : Z) (w : World) :
  UserRepository.by_email (reg_email data) w = None ->
  exists u w',
    UserService.register data env now w
    = (Ok (userWithoutPassword (obj_of_usuario u),
           generateToken (UserService.payload_of u) env now), w')
    /\ usuarios w' !! usuario_id u = Some u
    /\ ativo u = true
    /\ role u = str_or (reg_role data) "user"
    /\ (forall body, registerUserSchema body = Some data ->
          role u = default "user" (body_role body))
    /\ email u = reg_email data
    /\ senha u = hashPassword (reg_senha data) env
    /\ (wf_usuarios w -> usuarios w !! usuario_id u = None)
    /\ (forall j, j <> usuario_id u -> usuarios w' !! j = usuarios w !! j).
Proof.
  intros Hfree.
  unfold UserService.register, UserRepository.findByEmail, UserRepository.create.
  run. rewrite Hfree. simpl. rewrite Hfree.
  eexists _, _. split; [reflexivity|]. simpl. repeat split.
  - by rewrite lookup_insert_eq.
  - intros body Hbody. unfold registerUserSchema, registerUserSchema_role in Hbody.
    destruct (body_role body) as [s|]; simpl in Hbody.
    + case_bool_decide as Hs; simplify_eq/=.
      unfold str_or. case_decide as He; [|done].
      subst. repeat (apply elem_of_cons in Hs as [Hs|Hs]; [discriminate|]).
      by apply elem_of_nil in Hs.
    + by simplify_eq/=.
  - intros Hwf.
    destruct (usuarios w !! (usuario_seq w + 1)) as [u|] eqn:Hu; [|done].
    destruct (Hwf _ _ Hu) as [_ ?]. lia.
  - intros j Hj. by rewrite lookup_insert_ne.
Qed.

End UserProperties.

Section UserViews.
Context `{Primitives}.

(** The result of a user operation carries no [senha] property. *)
Definition hides_senha (r : result (gmap string jsval)) : Prop :=
  match r with
  | Ok user => user !! "senha" = None
  | Err _ => True
  end.

Lemma getUserById_view (id : Z) (w : World) :
  hides_senha (UserService.getUserById id w).1
  /\ (UserService.getUserById id w).2 = w.
Proof.
  unfold UserService.getUserById, UserRepository.findById. run.
  destruct (usuarios w !! id) as [u|]; simpl; [|done].
  destruct (ativo u); simpl; [|done].
  split; [apply userWithoutPassword_senha | done].
Qed.

(** C7. Whatever the input and the store, the user object returned by
    [register], [login], [getUserById] and [updateUser], and every entry
    of the list returned by [listUsers], has no [senha] property. *)
Theorem user_views_hide_senha (env : Env) (now : Z) (w : World) :
  (forall data, hides_senha (fst <$> (UserService.register data env now w).1))
  /\ (forall data, hides_senha (fst <$> (UserService.login data env now w).1))
  /\ (forall id, hides_senha (UserService.getUserById id w).1)
  /\ (forall id data, hides_senha (UserService.updateUser id data env w).1)
  /\ (forall pg lim,
        match (UserService.listUsers pg lim w).1 with
        | Ok (entries, _) => Forall (fun user => user !! "senha" = None) entries
        | Err _ => True
        end).
Proof.
  split; [|split; [|split; [|split]]].
  - intros data.
    unfold UserService.register, UserRepository.findByEmail, UserRepository.create.
    run. destruct (UserRepository.by_email (reg_email data) w) eqn:He; simpl; [done|].
    rewrite He. simpl. apply userWithoutPassword_senha.
  - intros data. unfold UserService.login, UserRepository.findByEmail. run.
    destruct (UserRepository.by_email (login_email data) w) as [u|]; simpl; [|done].
    destruct (ativo u); simpl; [|done].
    destruct (comparePassword _ _); simpl; [|done].
    apply userWithoutPassword_senha.
  - intros id. apply getUserById_view.
  - intros id data. unfold UserService.updateUser.
    pose proof (getUserById_view id w) as [_ Hw].
    unfold bind at 1.
    destruct (UserService.getUserById id w) as [[v|e] w1]; simpl in *; [|done].
    subst w1. unfold bind at 1.
    destruct (UserService.truthy (upd_email data)) as [e|].
    + unfold UserRepository.emailExists. run.
      destruct (existsb _ _); simpl; [done|].
      unfold UserRepository.update.
      destruct (usuarios w !! id); simpl; [|done].
      destruct (UserRepository.email_taken _ _ _); simpl; [done|].
      apply userWithoutPassword_senha.
    + unfold UserRepository.update. run.
      destruct (usuarios w !! id); simpl; [|done].
      destruct (UserRepository.email_taken _ _ _); simpl; [done|].
      apply userWithoutPassword_senha.
  - intros pg lim. unfold UserService.listUsers, UserRepository.findMany. run.
    apply Forall_fmap, Forall_forall. intros u _. simpl.
    apply select_senha.
Qed.

End UserViews.

(** ** The admin gate *)

Definition forbidden : Error :=
  HTTPException 403 "Acesso negado. Permissões insuficientes".

Lemma roleMiddleware_decision (requiredRoles : list string) (c : Context)
                              (u : JwtPayload) :
  ctx_user c = Some u ->
  roleMiddleware requiredRoles c
  = if bool_decide (jwt_role u ∈ requiredRoles) then Ok c else Err forbidden.
Proof. intros Hu. unfold roleMiddleware. by rewrite Hu. Qed.

Lemma issued_role_not_ADMIN (r : string) : issued_role r -> r ∉ ["ADMIN"].
Proof.
  intros [-> | ->] Hin;
    (apply elem_of_cons in Hin as [Hin|Hin]; [discriminate|]);
    by apply elem_of_nil in Hin.
Qed.

Lemma registerUserSchema_issued (body : RegisterBody) (data : RegisterUserInput) :
  registerUserSchema body = Some data -> issued_role (reg_role data).
Proof.
  unfold registerUserSchema, registerUserSchema_role.
  destruct (body_role body) as [s|]; simpl.
  - case_bool_decide as Hs; simpl; [|done]. intros [= <-]. simpl.
    apply elem_of_cons in Hs as [->|Hs]; [by left|].
    apply elem_of_cons in Hs as [->|Hs]; [by right|].
    by apply elem_of_nil in Hs.
  - intros [= <-]. by left.
Qed.

Lemma updateUserSchema_issued (r : option string) (s : string) :
  updateUserSchema_role r = Some (Some s) -> issued_role s.
Proof.
  unfold updateUserSchema_role. destruct r as [x|]; [|done].
  case_bool_decide as Hs; [|done]. intros [= <-].
  apply elem_of_cons in Hs as [->|Hs]; [by left|].
  apply elem_of_cons in Hs as [->|Hs]; [by right|].
  by apply elem_of_nil in Hs.
Qed.

Lemma issued_roles_empty : issued_roles empty_world.
Proof. intros id u Hu. simpl in Hu. by rewrite lookup_empty in Hu. Qed.

Section IssuedRoles.
Context `{Primitives}.

Lemma update_issued_roles (id : Z) (d : UpdateUserInput) (w : World) :
  (forall s, upd_role d = Some s -> issued_role s) ->
  issued_roles w ->
  issued_roles (UserRepository.update id d w).2.
Proof.
  intros Hrole Hw. unfold UserRepository.update.
  destruct (usuarios w !! id) as [u|] eqn:Hu; simpl; [|done].
  destruct (UserRepository.email_taken id d w); simpl; [done|].
  intros j u'. simpl. rewrite lookup_insert. case_decide; [|by apply Hw].
  intros [= <-]. simpl.
  destruct (upd_role d) as [s|] eqn:Hs; simpl; [by apply Hrole|].
  by apply (Hw id).
Qed.

Lemma getUserById_reads (id : Z) (w : World) :
  (UserService.getUserById id w).2 = w.
Proof.
  unfold UserService.getUserById, UserRepository.findById. run.
  destruct (usuarios w !! id) as [u|]; simpl; [|done].
  by destruct (ativo u).
Qed.

(** Registration through the schema keeps the stored roles among the
    issued ones. *)
Lemma register_issued_roles (body : RegisterBody) (data : RegisterUserInput)
                            (env : Env) (now : Z) (w : World) :
  registerUserSchema body = Some data ->
  issued_roles w ->
  issued_roles (UserService.register data env now w).2.
Proof.
  intros Hbody Hw.
  unfold UserService.register, UserRepository.findByEmail, UserRepository.create.
  run. destruct (UserRepository.by_email (reg_email data) w) eqn:He; simpl; [done|].
  rewrite He. simpl. intros id u. simpl. rewrite lookup_insert.
  case_decide; [|by apply Hw].
  intros [= <-]. simpl.
  pose proof (registerUserSchema_issued _ _ Hbody) as [-> | ->]; [by left | by right].
Qed.

Lemma login_reads (data : LoginUserInput) (env : Env) (now : Z) (w : World) :
  (UserService.login data env now w).2 = w.
Proof.
  unfold UserService.login, UserRepository.findByEmail. run.
  destruct (UserRepository.by_email (login_email data) w) as [u|]; simpl; [|done].
  destruct (ativo u); simpl; [|done].
  by destruct (comparePassword _ _).
Qed.

(** So does an update whose role, if any, went through the schema. *)
Lemma updateUser_issued_roles (id : Z) (data : UpdateUserInput) (env : Env)
                              (w : World) :
  (forall s, upd_role data = Some s -> issued_role s) ->
  issued_roles w ->
  issued_roles (UserService.updateUser id data env w).2.
Proof.
  intros Hrole Hw. unfold UserService.updateUser.
  unfold bind at 1.
  pose proof (getUserById_reads id w) as Hget.
  destruct (UserService.getUserById id w) as [[v|e] w1]; simpl in *; [|by subst].
  subst w1.
  assert (Hfin : forall d, upd_role d = upd_role data ->
            issued_roles
              (bind (UserRepository.update id d)
                 (fun updatedUser =>
                    match updatedUser with
                    | None => throw (new_Error "Erro ao atualizar usuário")
                    | Some u => ret (userWithoutPassword (obj_of_usuario u))
                    end) w).2).
  { intros d Hd.
    assert (Hupd : issued_roles (UserRepository.update id d w).2).
    { apply update_issued_roles; [|done]. by rewrite Hd. }
    unfold bind.
    destruct (UserRepository.update id d w) as [[[u|]|e] w2]; by simpl in *. }
  unfold bind at 1.
  destruct (UserService.truthy (upd_email data)) as [e|].
  - unfold UserRepository.emailExists, bind at 1. simpl.
    destruct (existsb _ _); simpl; [done|].
    apply Hfin. by destruct (UserService.truthy (upd_senha data)).
  - unfold ret at 1. apply Hfin.
    by destruct (UserService.truthy (upd_senha data)).
Qed.

Lemma changePassword_issued_roles (uid : Z) (data : ChangePasswordInput)
                                  (env : Env) (w : World) :
  issued_roles w ->
  issued_roles (UserService.changePassword uid data env w).2.
Proof.
  intros Hw.
  unfold UserService.changePassword, UserRepository.findById,
    UserRepository.updatePassword.
  unfold bind at 1. simpl.
  destruct (usuarios w !! uid) as [u|]; simpl; [|done].
  destruct (ativo u); simpl; [|done].
  destruct (comparePassword _ _); simpl; [|done].
  set (d := mkUpdateUserInput None None
              (Some (hashPassword (novaSenha data) env)) None None).
  assert (Hupd : issued_roles (UserRepository.update uid d w).2).
  { by apply update_issued_roles. }
  unfold bind, ret.
  destruct (UserRepository.update uid d w) as [[r|e] w2]; simpl in *; [|done].
  by destruct (bool_decide _).
Qed.

Lemma deactivateUser_issued_roles (id : Z) (w : World) :
  issued_roles w ->
  issued_roles (UserService.deactivateUser id w).2.
Proof.
  intros Hw. unfold UserService.deactivateUser, UserRepository.deactivate.
  unfold bind at 1.
  pose proof (getUserById_reads id w) as Hget.
  destruct (UserService.getUserById id w) as [[v|e] w1]; simpl in *; [|by subst].
  subst w1.
  set (d := mkUpdateUserInput None None None None (Some false)).
  assert (Hupd : issued_roles (UserRepository.update id d w).2).
  { by apply update_issued_roles. }
  unfold bind, ret.
  destruct (UserRepository.update id d w) as [[r|e] w2]; simpl in *; [|done].
  by destruct (bool_decide _).
Qed.

(** One request served by the system, as far as the table of users is
    concerned: a call of the user service on an input its schema
    accepted, or anything that leaves the users alone (orders, files, time
    passing). *)
Inductive served : World -> World -> Prop :=
  | served_register body data env now w :
      registerUserSchema body = Some data ->
      served w (UserService.register data env now w).2
  | served_login data env now w :
      served w (UserService.login data env now w).2
  | served_updateUser id raw_role data env w :
      updateUserSchema_role raw_role = Some (upd_role data) ->
      served w (UserService.updateUser id data env w).2
  | served_changePassword uid data env w :
      served w (UserService.changePassword uid data env w).2
  | served_deactivateUser id w :
      served w (UserService.deactivateUser id w).2
  | served_elsewhere w w' :
      usuarios w' = usuarios w ->
      served w w'.

(** The stores the system gets to from the empty one. *)
Definition reachable (w : World) : Prop := rtc served empty_world w.

Lemma served_issued_roles (w w' : World) :
  served w w' -> issued_roles w -> issued_roles w'.
Proof.
  intros Hstep Hw.
  destruct Hstep as [body data env now w Hbody | data env now w
                    | id raw_role data env w Hraw | uid data env w | id w
                    | w w' Hsame].
  - by eapply register_issued_roles.
  - by rewrite login_reads.
  - apply updateUser_issued_roles; [|done].
    intros s Hs. eapply updateUserSchema_issued. by rewrite <- Hs.
  - by apply changePassword_issued_roles.
  - by apply deactivateUser_issued_roles.
  - intros id u. rewrite Hsame. apply Hw.
Qed.

Lemma reachable_issued_roles (w : World) : reachable w -> issued_roles w.
Proof.
  unfold reachable. revert w. apply rtc_ind_r.
  - apply issued_roles_empty.
  - intros w w' _ Hstep Hw. by eapply served_issued_roles.
Qed.

(** C10. A request whose identity has the role ['user'] or ['admin'] is
    refused by the gate [roleMiddleware(['ADMIN'])] with status 403, and so
    is it by any chain that reaches the gate with that identity.  The
    tokens of the system carry such a role: whenever [register] or
    [login] succeeds on a store the system got to from the empty one, on
    an input the schema accepted, the token is signed over the payload of
    a stored user whose role is ['user'] or ['admin'], and a request with
    that payload is refused by the gate. *)
Theorem admin_gate_refuses_issued_roles :
  (forall c u,
     ctx_user c = Some u -> issued_role (jwt_role u) ->
     admin_gate c = Err forbidden
     /\ forall rest, run_chain (admin_gate :: rest) c = Err forbidden)
  /\
  (forall body data env now w r w',
     registerUserSchema body = Some data ->
     UserService.register data env now w = (Ok r, w') ->
     exists u,
       usuarios w' !! usuario_id u = Some u
       /\ r.2 = generateToken (UserService.payload_of u) env now
       /\ issued_role (jwt_role (UserService.payload_of u))
       /\ forall c, ctx_user c = Some (UserService.payload_of u) ->
                    admin_gate c = Err forbidden)
  /\
  (forall data env now w r w',
     reachable w ->
     UserService.login data env now w = (Ok r, w') ->
     exists id u,
       usuarios w !! id = Some u
       /\ r.2 = generateToken (UserService.payload_of u) env now
       /\ issued_role (jwt_role (UserService.payload_of u))
       /\ forall c, ctx_user c = Some (UserService.payload_of u) ->
                    admin_gate c = Err forbidden).
Proof.
  assert (Hgate : forall c u,
            ctx_user c = Some u -> issued_role (jwt_role u) ->
            admin_gate c = Err forbidden).
  { intros c u Hu Hrole.
    unfold admin_gate. rewrite (roleMiddleware_decision _ _ _ Hu).
    rewrite bool_decide_eq_false_2; [done|].
    by apply issued_role_not_ADMIN. }
  split; [|split].
  - intros c u Hu Hrole. split; [by eapply Hgate|].
    intros rest. simpl. by rewrite (Hgate c u).
  - intros body data env now w r w' Hbody.
    unfold UserService.register, UserRepository.findByEmail, UserRepository.create.
    run. destruct (UserRepository.by_email (reg_email data) w) eqn:He; simpl; [done|].
    rewrite He. simpl. intros [= <- <-].
    exists (UserRepository.new_row w
              (mkRegisterUserInput (reg_nome data) (reg_email data)
                 (hashPassword (reg_senha data) env) (reg_role data))).
    assert (Hrole : issued_role (str_or (reg_role data) "user")).
    { pose proof (registerUserSchema_issued _ _ Hbody) as [-> | ->];
        [by left | by right]. }
    simpl. split; [|split; [|split]].
    + by rewrite lookup_insert_eq.
    + reflexivity.
    + done.
    + intros c Hc. by eapply Hgate.
  - intros data env now w r w' Hw.
    apply reachable_issued_roles in Hw.
    unfold UserService.login, UserRepository.findByEmail. run.
    destruct (UserRepository.by_email (login_email data) w) as [u|] eqn:He;
      simpl; [|done].
    destruct (ativo u); simpl; [|done].
    destruct (comparePassword _ _); simpl; [|done].
    intros [= <- <-].
    apply by_email_stored in He as [_ [id Hid]].
    exists id, u. split; [done|]. split; [done|].
    assert (Hrole : issued_role (role u)) by by apply (Hw id).
    split; [done|]. intros c Hc. by eapply Hgate.
Qed.

End IssuedRoles.

(** ** File upload *)

Section UploadProperties.
Variable formatFileSize : number -> string.
Variable baseUrl : string.

(** The three reasons for which a file is rejected. *)
Definition rejected (file : File) (options : FileUploadOptions) : Prop :=
  num_gtb (num_of_Z (file_size file)) (maxSize options) = true
  \/ file_type file ∉ allowedTypes options
  \/ file_size file = 0.

Lemma validateFile_rejects (file : File) (options : FileUploadOptions) :
  rejected file options <->
  exists e, FileService.validateFile formatFileSize file options = Err e.
Proof.
  unfold rejected, FileService.validateFile. split.
  - intros [Hsize | [Htype | Hzero]].
    + rewrite Hsize. eauto.
    + destruct (num_gtb _ _); [eauto|].
      rewrite bool_decide_eq_false_2 by done. simpl. eauto.
    + destruct (num_gtb _ _); [eauto|].
      destruct (negb _); [eauto|].
      rewrite decide_True by done. eauto.
  - intros [e He].
    destruct (num_gtb _ _); [by left|].
    case_bool_decide as Htype; simpl in He; [|by right; left].
    case_decide; [by right; right | done].
Qed.

(** C9. When the size of the file is above [maxSize], when its type is
    not among [allowedTypes], or when its size is zero, [uploadFile]
    fails with the error of the validation, prefixed, and leaves the
    bucket and the table of files as they were. *)
Theorem uploadFile_rejects_before_writing (file : File) (uid : string)
    (options : FileUploadOptions) (timestamp : Z) (random : string) (w : World) :
  rejected file options ->
  exists e,
    FileService.validateFile formatFileSize file options = Err e
    /\ FileService.uploadFile formatFileSize baseUrl file uid options
                              timestamp random w
       = (Err (new_Error ("Erro no upload: " +:+ message e)), w)
    /\ bucket (FileService.uploadFile formatFileSize baseUrl file uid options
                                      timestamp random w).2 = bucket w
    /\ arquivos (FileService.uploadFile formatFileSize baseUrl file uid options
                                        timestamp random w).2 = arquivos w.
Proof.
  intros Hrej. apply validateFile_rejects in Hrej as [e He].
  exists e. split; [done|].
  assert (Hup : FileService.uploadFile formatFileSize baseUrl file uid options
                  timestamp random w
                = (Err (new_Error ("Erro no upload: " +:+ message e)), w)).
  { unfold FileService.uploadFile. run. by rewrite He. }
  rewrite Hup. done.
Qed.

(** A file that passes the validation is written to the bucket and then
    recorded. *)
Lemma uploadFile_accepts (file : File) (uid : string)
    (options : FileUploadOptions) (timestamp : Z) (random : string) (w : World) :
  FileService.validateFile formatFileSize file options = Ok tt ->
  exists up w',
    FileService.uploadFile formatFileSize baseUrl file uid options
                           timestamp random w = (Ok up, w')
    /\ arquivo_tamanho <$> arquivos w' !! up_id up = Some (file_size file)
    /\ exists key, r2_body <$> bucket w' !! key = Some (file_stream file).
Proof.
  intros Hok. unfold FileService.uploadFile. run. rewrite Hok. simpl.
  eexists _, _. split; [reflexivity|]. simpl. split.
  - by rewrite lookup_insert_eq.
  - eexists. by rewrite lookup_insert_eq.
Qed.

End UploadProperties.

(** ** Worked requests *)

(** An instance for the examples, with no cryptography in it: the hash
    is the password behind a prefix and the token is its payload in
    clear. *)
Definition plain_hash (password : string) (rounds : Z) : string :=
  "$2a$" +:+ pretty rounds +:+ "$" +:+ password.

Definition plain_sign (payload : JwtPayload) (secret expiresIn : string)
                      (now : Z) : string :=
  pretty (userId payload) +:+ ":" +:+ jwt_role payload +:+ ":" +:+ pretty now
         +:+ ":" +:+ expiresIn.

Global Instance plain_primitives : Primitives := {|
  bcrypt_hash := plain_hash;
  bcrypt_compare := fun password hash =>
    bool_decide (hash = plain_hash password 12);
  jwt_sign := plain_sign;
  jwt_verify := fun _ _ _ => None;
|}.

Definition ana_body : RegisterBody :=
  mkRegisterBody "Ana" "ana@x.com" "Senha123" None.

Definition ana_data : RegisterUserInput :=
  mkRegisterUserInput "Ana" "ana@x.com" "Senha123" "user".

Definition bia_data : RegisterUserInput :=
  mkRegisterUserInput "Bia" "bia@x.com" "Senha456" "user".

Definition ana_row : Usuario :=
  mkUsuario 1 "ana@x.com" "$2a$12$Senha123" "Ana" "user" true 0 0.

Definition bia_row : Usuario :=
  mkUsuario 2 "bia@x.com" "$2a$12$Senha456" "Bia" "user" false 0 0.

(** Ana and Bia register, then Bia is deactivated. *)
Definition world_users : World :=
  (UserService.deactivateUser 2
     (UserService.register bia_data test_env 2
        (UserService.register ana_data test_env 1 empty_world).2).2).2.

Lemma world_users_rows :
  usuarios world_users !! 1 = Some ana_row
  /\ usuarios world_users !! 2 = Some bia_row.
Proof. split; vm_compute; reflexivity. Qed.

Lemma login_generic_failure_witness :
  UserService.login (mkLoginUserInput "ninguem@x.com" "Senha123") test_env 5
                    world_users
  = (Err invalid_credentials, world_users)
  /\ UserService.login (mkLoginUserInput "bia@x.com" "Senha456") test_env 5
                       world_users
     = (Err invalid_credentials, world_users)
  /\ UserService.login (mkLoginUserInput "ana@x.com" "senha errada") test_env 5
                       world_users
     = (Err invalid_credentials, world_users)
  /\ UserService.login (mkLoginUserInput "ana@x.com" "Senha123") test_env 5
                       world_users
     = (Ok (userWithoutPassword (obj_of_usuario ana_row),
            generateToken (UserService.payload_of ana_row) test_env 5),
        world_users).
Proof.
  split; [|split; [|split]].
  - apply (proj1 (login_generic_failure
                    (mkLoginUserInput "ninguem@x.com" "Senha123") test_env 5
                    world_users)).
    vm_compute. reflexivity.
  - apply (proj1 (proj2 (login_generic_failure
                           (mkLoginUserInput "bia@x.com" "Senha456") test_env 5
                           world_users) bia_row
                    ltac:(vm_compute; reflexivity))).
    reflexivity.
  - apply (proj1 (proj2 (proj2 (login_generic_failure
                                  (mkLoginUserInput "ana@x.com" "senha errada")
                                  test_env 5 world_users) ana_row
                           ltac:(vm_compute; reflexivity)))).
    vm_compute. reflexivity.
  - apply (proj2 (proj2 (proj2 (login_generic_failure
                                  (mkLoginUserInput "ana@x.com" "Senha123")
                                  test_env 5 world_users) ana_row
                           ltac:(vm_compute; reflexivity)))).
    + reflexivity.
    + vm_compute. reflexivity.
Defined.

Lemma register_persists_active_user_witness :
  exists u w',
    UserService.register ana_data test_env 1 empty_world
    = (Ok (userWithoutPassword (obj_of_usuario u),
           generateToken (UserService.payload_of u) test_env 1), w')
    /\ usuarios w' !! usuario_id u = Some u
    /\ ativo u = true
    /\ role u = "user"
    /\ email u = "ana@x.com".
Proof.
  destruct (register_persists_active_user ana_data test_env 1 empty_world)
    as (u & w' & Hreg & Hstored & Hativo & Hrole & _ & Hemail & _).
  - vm_compute. reflexivity.
  - exists u, w'. repeat split; assumption.
Defined.

(** The view of a registered user: the columns but the hash. *)
Example register_view_example :
  (UserService.register ana_data test_env 1 empty_world).1
  = Ok (userWithoutPassword (obj_of_usuario ana_row), "1:user:1:7d")
  /\ userWithoutPassword (obj_of_usuario ana_row) !! "senha" = None
  /\ obj_of_usuario ana_row !! "senha" = Some (JString "$2a$12$Senha123")
  /\ dom (userWithoutPassword (obj_of_usuario ana_row))
     = list_to_set UserRepository.selected_keys.
Proof. repeat split; vm_compute; reflexivity. Qed.

(** The listing shows the active users only. *)
Example listUsers_example :
  (UserService.listUsers 1 10 world_users).1
  = Ok ([select UserRepository.selected_keys (obj_of_usuario ana_row)],
        mkPagination 1 10 1 (num_of_Z 1) false false).
Proof. vm_compute. reflexivity. Qed.

Definition bia_body : RegisterBody :=
  mkRegisterBody "Bia" "bia@x.com" "Senha456" (Some "user").

Lemma world_users_reachable : reachable world_users.
Proof.
  unfold reachable, world_users.
  eapply rtc_r; [eapply rtc_r; [eapply rtc_once|]|].
  - by apply (served_register ana_body ana_data test_env 1 empty_world).
  - by apply (served_register bia_body bia_data test_env 2).
  - apply served_deactivateUser.
Qed.

Lemma admin_gate_refuses_issued_roles_witness :
  admin_gate (request_of chefe) = Err forbidden
  /\ admin_gate (request_of ana) = Err forbidden
  /\ run_chain [admin_gate] (request_of chefe) = Err forbidden
  /\ exists id u,
       usuarios world_users !! id = Some u
       /\ (UserService.login (mkLoginUserInput "ana@x.com" "Senha123") test_env 5
                             world_users).1
          = Ok (userWithoutPassword (obj_of_usuario ana_row),
                generateToken (UserService.payload_of u) test_env 5)
       /\ admin_gate (request_of (UserService.payload_of u)) = Err forbidden.
Proof.
  split; [|split; [|split]].
  - apply (proj1 admin_gate_refuses_issued_roles (request_of chefe) chefe);
      [reflexivity | right; reflexivity].
  - apply (proj1 admin_gate_refuses_issued_roles (request_of ana) ana);
      [reflexivity | left; reflexivity].
  - apply (proj1 admin_gate_refuses_issued_roles (request_of chefe) chefe);
      [reflexivity | right; reflexivity].
  - destruct (proj2 (proj2 admin_gate_refuses_issued_roles)
                (mkLoginUserInput "ana@x.com" "Senha123") test_env 5 world_users
                (userWithoutPassword (obj_of_usuario ana_row),
                 generateToken (UserService.payload_of ana_row) test_env 5)
                world_users world_users_reachable)
      as (id & u & Hu & Htoken & _ & Hgate).
    + vm_compute. reflexivity.
    + exists id, u. split; [exact Hu|]. split.
      * change (generateToken (UserService.payload_of ana_row) test_env 5
                = generateToken (UserService.payload_of u) test_env 5) in Htoken.
        rewrite <- Htoken. vm_compute. reflexivity.
      * apply Hgate. reflexivity.
Defined.

Definition empty_file : File := mkFile "foto.png" 0 "image/png" [].
Definition big_file : File := mkFile "foto.png" 10485761 "image/png" [].
Definition script_file : File := mkFile "run.sh" 12 "text/x-sh" [35; 33].

Lemma uploadFile_rejects_before_writing_witness :
  FileService.uploadFile (fun _ => "10 MB") "https://api" empty_file "1"
                         (upload_options test_env) 1700 "k3x9" empty_world
  = (Err (new_Error "Erro no upload: Arquivo está vazio"), empty_world)
  /\
  FileService.uploadFile (fun _ => "10 MB") "https://api" big_file "1"
                         (upload_options test_env) 1700 "k3x9" empty_world
  = (Err (new_Error
            "Erro no upload: Arquivo muito grande. Tamanho máximo: 10 MB"),
     empty_world)
  /\
  (FileService.uploadFile (fun _ => "10 MB") "https://api" script_file "1"
                          (upload_options test_env) 1700 "k3x9" empty_world).2
  = empty_world.
Proof.
  split; [|split].
  - destruct (uploadFile_rejects_before_writing (fun _ => "10 MB") "https://api"
                empty_file "1" (upload_options test_env) 1700 "k3x9" empty_world)
      as (e & Hval & Hup & _).
    + right; right. reflexivity.
    + vm_compute in Hval. injection Hval as <-. exact Hup.
  - destruct (uploadFile_rejects_before_writing (fun _ => "10 MB") "https://api"
                big_file "1" (upload_options test_env) 1700 "k3x9" empty_world)
      as (e & Hval & Hup & _).
    + left. vm_compute. reflexivity.
    + vm_compute in Hval. injection Hval as <-. exact Hup.
  - destruct (uploadFile_rejects_before_writing (fun _ => "10 MB") "https://api"
                script_file "1" (upload_options test_env) 1700 "k3x9" empty_world)
      as (e & Hval & Hup & _).
    + right; left. apply (bool_decide_unpack _). vm_compute. reflexivity.
    + by rewrite Hup.
Defined.

(** * Further properties of the code

    Properties of the services, the controllers and the middleware beyond
    those the specification states.  As in the repositories above, an
    update writes the columns of its data and no other: the migrations
    give [atualizado_em] a default for the insert and no trigger, so the
    column keeps the value of the insert. *)

(** ** Orders: the store under the service *)

Lemma getPedidoById_lookup (id : Z) (w : World) :
  PedidoService.getPedidoById id w
  = (match pedidos w !! id with
     | Some p => Ok p
     | None => Err (new_Error "Pedido não encontrado")
     end, w).
Proof.
  unfold PedidoService.getPedidoById, PedidoRepository.findById. run.
  by destruct (pedidos w !! id).
Qed.


Lemma updatePedido_missing (id : Z) (data : UpdatePedidoInput) (w : World) :
  pedidos w !! id = None ->
  PedidoService.updatePedido id data w
  = (Err (new_Error "Pedido não encontrado"), w).
Proof.
  intros Hnone. unfold PedidoService.updatePedido. unfold bind.
  rewrite getPedidoById_lookup, Hnone. reflexivity.
Qed.

Lemma updatePedido_bad_price (id : Z) (data : UpdatePedidoInput) (w : World)
                             (p : Pedido) (pr : number) :
  pedidos w !! id = Some p ->
  upd_preco data = Some pr ->
  num_leb pr (num_of_Z 0) = true ->
  PedidoService.updatePedido id data w
  = (Err (new_Error "Preço deve ser maior que zero"), w).
Proof.
  intros Hp Hpr Hle. unfold PedidoService.updatePedido. unfold bind.
  rewrite getPedidoById_lookup, Hp, Hpr, Hle. reflexivity.
Qed.

(** Every call of the order service keeps the rows under their own id and
    below the counter of the table, and never lowers the counter. *)
Theorem order_service_keeps_wf (w : World) :
  wf_pedidos w ->
  (forall data,
     wf_pedidos (PedidoService.createPedido data w).2
     /\ pedido_seq w <= pedido_seq (PedidoService.createPedido data w).2)
  /\ (forall id data,
        wf_pedidos (PedidoService.updatePedido id data w).2
        /\ pedido_seq (PedidoService.updatePedido id data w).2 = pedido_seq w)
  /\ (forall id st,
        wf_pedidos (PedidoService.updateStatus id st w).2
        /\ pedido_seq (PedidoService.updateStatus id st w).2 = pedido_seq w)
  /\ (forall id,
        wf_pedidos (PedidoService.deletePedido id w).2
        /\ pedido_seq (PedidoService.deletePedido id w).2 = pedido_seq w).
Proof.
  intros Hwf.
  assert (Hupd : forall id data,
            wf_pedidos (PedidoService.updatePedido id data w).2
            /\ pedido_seq (PedidoService.updatePedido id data w).2 = pedido_seq w).
  { intros id data.
    destruct (pedidos w !! id) as [p|] eqn:Hp.
    - destruct (upd_preco data) as [pr|] eqn:Hpr.
      + destruct (num_leb pr (num_of_Z 0)) eqn:Hle.
        * by rewrite (updatePedido_bad_price id data w p pr).
        * rewrite (updatePedido_existing id data w p Hp)
            by (unfold price_passes; by rewrite Hpr).
          simpl. split; [|done]. intros j q. simpl. rewrite lookup_insert.
          case_decide as Hj; [|by apply Hwf].
          intros [= <-]. simpl. subst j. by apply Hwf.
      + rewrite (updatePedido_existing id data w p Hp)
          by (unfold price_passes; by rewrite Hpr).
        simpl. split; [|done]. intros j q. simpl. rewrite lookup_insert.
        case_decide as Hj; [|by apply Hwf].
        intros [= <-]. simpl. subst j. by apply Hwf.
    - by rewrite updatePedido_missing. }
  split; [|split; [|split]].
  - intros data. unfold PedidoService.createPedido.
    destruct (num_leb _ _); simpl; [split; [done | lia]|].
    split; [by apply wf_pedidos_create | lia].
  - done.
  - intros id st. unfold PedidoService.updateStatus.
    case_bool_decide; [apply Hupd | done].
  - intros id.
    unfold PedidoService.deletePedido, PedidoRepository.delete. unfold bind.
    rewrite getPedidoById_lookup.
    destruct (pedidos w !! id) as [p|] eqn:Hp; simpl; [|done].
    destruct (decide (pedido_status p = "entregue")); simpl; [done|].
    rewrite Hp. simpl. split; [|done]. intros j q. simpl. intros Hq.
    apply lookup_delete_Some in Hq as [_ Hq]. by apply Hwf.
Qed.

Lemma wf_world_entregue : wf_pedidos world_entregue.
Proof.
  intros id p Hp. simpl in Hp.
  apply lookup_singleton_Some in Hp as [<- <-]. simpl. split; [done | lia].
Qed.

Lemma order_service_keeps_wf_witness :
  wf_pedidos (PedidoService.createPedido marmita world_entregue).2
  /\ wf_pedidos (PedidoService.updateStatus 1 "cancelado" world_entregue).2
  /\ wf_pedidos (PedidoService.deletePedido 1 world_entregue).2.
Proof.
  destruct (order_service_keeps_wf world_entregue wf_world_entregue)
    as (Hc & _ & Hs & Hd).
  split; [apply Hc | split; [apply Hs | apply Hd]].
Defined.

(** An order that was created can be read back, and once it is deleted
    its id is gone for good: the table is as before the creation, reading
    the id fails, and the next order gets the following id. *)
Theorem deleted_id_is_not_reused (data data' : CreatePedidoInput) (w : World) :
  wf_pedidos w ->
  num_gtb (create_preco data) (num_of_Z 0) = true ->
  num_gtb (create_preco data') (num_of_Z 0) = true ->
  exists p w1 w2 p' w3,
    PedidoService.createPedido data w = (Ok p, w1)
    /\ PedidoService.getPedidoById (pedido_id p) w1 = (Ok p, w1)
    /\ PedidoService.deletePedido (pedido_id p) w1 = (Ok tt, w2)
    /\ pedidos w2 = pedidos w
    /\ PedidoService.getPedidoById (pedido_id p) w2
       = (Err (new_Error "Pedido não encontrado"), w2)
    /\ PedidoService.createPedido data' w2 = (Ok p', w3)
    /\ pedido_id p' = pedido_id p + 1
    /\ pedidos w3 !! pedido_id p = None.
Proof.
  intros Hwf Hprice Hprice'.
  pose proof (wf_pedidos_fresh w Hwf) as Hfresh.
  set (p := PedidoRepository.new_row w data).
  set (w1 := with_pedidos (<[pedido_seq w + 1 := p]> (pedidos w))
                          (pedido_seq w + 1) w).
  set (w2 := with_pedidos (pedidos w) (pedido_seq w + 1) w).
  exists p, w1, w2, (PedidoRepository.new_row w2 data'),
    (PedidoRepository.create data' w2).2.
  assert (Hp1 : pedidos w1 !! (pedido_seq w + 1) = Some p).
  { subst w1. simpl. by rewrite lookup_insert_eq. }
  split; [|split; [|split; [|split; [|split; [|split; [|split]]]]]].
  - unfold PedidoService.createPedido.
    by rewrite (num_gtb_not_leb _ Hprice).
  - rewrite getPedidoById_lookup. simpl. by rewrite lookup_insert_eq.
  - unfold PedidoService.deletePedido, PedidoRepository.delete. unfold bind.
    rewrite getPedidoById_lookup. simpl. rewrite lookup_insert_eq. simpl.
    rewrite lookup_insert_eq. simpl. unfold ret, w2, with_pedidos. simpl.
    by rewrite delete_insert_id.
  - reflexivity.
  - rewrite getPedidoById_lookup. simpl. by rewrite Hfresh.
  - unfold PedidoService.createPedido.
    by rewrite (num_gtb_not_leb _ Hprice').
  - reflexivity.
  - simpl. rewrite lookup_insert_ne by lia. apply Hfresh.
Qed.

Lemma deleted_id_is_not_reused_witness :
  exists p w1 w2 p' w3,
    PedidoService.createPedido marmita world_entregue = (Ok p, w1)
    /\ PedidoService.deletePedido (pedido_id p) w1 = (Ok tt, w2)
    /\ pedidos w2 = pedidos world_entregue
    /\ PedidoService.createPedido marmita w2 = (Ok p', w3)
    /\ pedido_id p = 2 /\ pedido_id p' = 3.
Proof.
  destruct (deleted_id_is_not_reused marmita marmita world_entregue
              wf_world_entregue eq_refl eq_refl)
    as (p & w1 & w2 & p' & w3 & Hc & _ & Hd & Hsame & _ & Hc' & Hid & _).
  exists p, w1, w2, p', w3.
  assert (Hp : pedido_id p = 2).
  { vm_compute in Hc. by injection Hc as <- _. }
  repeat split; try assumption. lia.
Defined.

(** ** Orders: updates *)










(** ** Orders: listing *)














(** ** Orders: statistics *)

(** How many of the orders of a list have the status [s]. *)
Definition count_status (s : string) (l : list Pedido) : Z :=
  Z.of_nat (length (filter (fun p => pedido_status p = s) l)).

Lemma tally_lookup (l : list Pedido) (acc : gmap string Z) (s : string) :
  foldl (fun acc p =>
           <[pedido_status p := default 0 (acc !! pedido_status p) + 1]> acc)
        acc l !! s
  = if decide (count_status s l = 0) then acc !! s
    else Some (default 0 (acc !! s) + count_status s l).
Proof.
  revert acc. induction l as [|p l IH]; intros acc; [done|].
  simpl. rewrite IH.
  destruct (decide (pedido_status p = s)) as [<-|Hne].
  - assert (Hc : count_status (pedido_status p) (p :: l)
                 = count_status (pedido_status p) l + 1).
    { unfold count_status. rewrite filter_cons_True by done. simpl. lia. }
    assert (Hpos : 0 <= count_status (pedido_status p) l).
    { unfold count_status. lia. }
    rewrite Hc, lookup_insert_eq. simpl.
    rewrite (decide_False (P := _ + 1 = 0)) by lia.
    case_decide as Hz; f_equal; lia.
  - assert (Hc : count_status s (p :: l) = count_status s l).
    { unfold count_status. by rewrite filter_cons_False. }
    rewrite Hc, lookup_insert_ne by done. reflexivity.
Qed.

(** [getStatistics] never fails and never writes; the object it answers
    has, for each status some order has, the number of orders with that
    status, and no property for a status no order has. *)
Theorem getStatistics_counts (w : World) :
  exists stats,
    PedidoService.getStatistics w = (Ok stats, w)
    /\ forall s,
         stats !! s
         = if decide (count_status s (PedidoRepository.rows w) = 0) then None
           else Some (count_status s (PedidoRepository.rows w)).
Proof.
  eexists. split; [reflexivity|]. intros s.
  rewrite tally_lookup, lookup_empty. simpl.
  case_decide; [done|]. reflexivity.
Qed.

(** ** Orders: what the controller answers *)

Definition failure {A} (msg : string) (st : Z) : Response A :=
  mkResponse (Failure msg) st.

(** A failure of the order service reaches the client with status 500
    and the message of the error: reading, updating or deleting an id with
    no order, deleting a delivered order, a status outside the five
    values.  None of these writes. *)
Theorem pedido_controller_failures (c : Context) (id : Z) (w : World) :
  (pedidos w !! id = None ->
   PedidoController.getById c id w = (failure "Pedido não encontrado" 500, w)
   /\ (forall data,
         PedidoController.update c id data w
         = (failure "Pedido não encontrado" 500, w))
   /\ PedidoController.delete c id w = (failure "Pedido não encontrado" 500, w))
  /\
  (forall p, pedidos w !! id = Some p -> pedido_status p = "entregue" ->
     PedidoController.delete c id w
     = (failure "Não é possível deletar pedidos já entregues" 500, w))
  /\
  (forall st, st <> "" -> st ∉ PedidoService.validStatuses ->
     PedidoController.updateStatus c id (Some st) w
     = (failure "Status inválido" 500, w))
  /\
  PedidoController.updateStatus c id None w
  = (mkResponse (Plain_error "Status é obrigatório") 400, w).
Proof.
  split; [|split; [|split]].
  - intros Hnone. split; [|split].
    + unfold PedidoController.getById, handler, bind.
      by rewrite getPedidoById_lookup, Hnone.
    + intros data. unfold PedidoController.update, handler, bind.
      by rewrite updatePedido_missing.
    + unfold PedidoController.delete, PedidoService.deletePedido, handler, bind.
      by rewrite getPedidoById_lookup, Hnone.
  - intros p Hp He.
    unfold PedidoController.delete, PedidoService.deletePedido, handler, bind.
    rewrite getPedidoById_lookup, Hp. by rewrite decide_True.
  - intros st Hne Hst.
    unfold PedidoController.updateStatus, PedidoService.updateStatus, handler, bind.
    rewrite decide_False by done. by rewrite bool_decide_eq_false_2.
  - reflexivity.
Qed.

Lemma pedido_controller_failures_witness :
  PedidoController.getById (request_of ana) 9 world_entregue
  = (failure "Pedido não encontrado" 500, world_entregue)
  /\ PedidoController.delete (request_of ana) 1 world_entregue
     = (failure "Não é possível deletar pedidos já entregues" 500, world_entregue)
  /\ PedidoController.updateStatus (request_of ana) 1 (Some "devolvido")
                                   world_entregue
     = (failure "Status inválido" 500, world_entregue).
Proof.
  split; [|split].
  - apply (proj1 (pedido_controller_failures (request_of ana) 9 world_entregue)).
    reflexivity.
  - apply (proj1 (proj2 (pedido_controller_failures (request_of ana) 1
                           world_entregue)) marmita_entregue); reflexivity.
  - apply (proj1 (proj2 (proj2 (pedido_controller_failures (request_of ana) 1
                                  world_entregue))) "devolvido").
    + discriminate.
    + apply (bool_decide_unpack _). reflexivity.
Defined.



(** [update], [updateStatus] and [delete] of the controller do not look
    at the caller: whoever asks, and whatever the role, an order that is
    not delivered is deleted with status 200, and the status of any order
    is set to any of the five values. *)
Theorem pedido_controller_mutations_unscoped (c : Context) (id : Z) (w : World)
                                             (p : Pedido) :
  pedidos w !! id = Some p ->
  (pedido_status p <> "entregue" ->
   exists w',
     PedidoController.delete c id w
     = (mkResponse (Success tt (Some "Pedido removido com sucesso")) 200, w')
     /\ pedidos w' = base.delete id (pedidos w))
  /\
  (forall st, st ∈ PedidoService.validStatuses ->
     exists w',
       PedidoController.updateStatus c id (Some st) w
       = (mkResponse
            (Success (PedidoRepository.patch (only_status st) p)
                     (Some "Status do pedido atualizado com sucesso")) 200, w')
       /\ pedidos w' = <[id := PedidoRepository.patch (only_status st) p]> (pedidos w)).
Proof.
  intros Hp. split.
  - intros Hne.
    unfold PedidoController.delete, PedidoService.deletePedido,
      PedidoRepository.delete, handler, bind.
    rewrite getPedidoById_lookup, Hp. rewrite decide_False by done.
    rewrite Hp. simpl. eexists. split; reflexivity.
  - intros st Hst.
    assert (Hne : st <> "").
    { intros ->. unfold PedidoService.validStatuses in Hst.
      repeat (apply elem_of_cons in Hst as [Hst|Hst]; [discriminate|]).
      by apply elem_of_nil in Hst. }
    unfold PedidoController.updateStatus, PedidoService.updateStatus, handler, bind.
    rewrite decide_False by done. rewrite bool_decide_eq_true_2 by done.
    rewrite (updatePedido_existing id (only_status st) w p Hp) by done.
    simpl. eexists. split; reflexivity.
Qed.

Lemma pedido_controller_mutations_unscoped_witness :
  exists w',
    PedidoController.updateStatus (request_of bia) 1 (Some "cancelado")
                                  world_entregue
    = (mkResponse
         (Success (PedidoRepository.patch (only_status "cancelado") marmita_entregue)
                  (Some "Status do pedido atualizado com sucesso")) 200, w')
    /\ pedidos w'
       = <[1 := PedidoRepository.patch (only_status "cancelado") marmita_entregue]>
           (pedidos world_entregue).
Proof.
  apply (proj2 (pedido_controller_mutations_unscoped (request_of bia) 1
                  world_entregue marmita_entregue eq_refl)).
  apply (bool_decide_unpack _). reflexivity.
Defined.

(** ** Users: the table *)

(** No two rows have the same email. *)
Definition unique_emails (w : World) : Prop :=
  forall i j u v,
    usuarios w !! i = Some u -> usuarios w !! j = Some v ->
    email u = email v -> i = j.

(** Every row is stored under its own id. *)
Definition keyed (w : World) : Prop :=
  forall id u, usuarios w !! id = Some u -> usuario_id u = id.

Lemma rows_stored (w : World) (u : Usuario) :
  u ∈ UserRepository.rows w <-> exists id, usuarios w !! id = Some u.
Proof.
  unfold UserRepository.rows. rewrite list_elem_of_fmap. split.
  - intros [[id u'] [-> Hin]]. exists id. by apply elem_of_map_to_list.
  - intros [id Hid]. exists (id, u). split; [done|].
    by apply elem_of_map_to_list.
Qed.

Lemma by_email_found (e : string) (w : World) (id : Z) (u : Usuario) :
  usuarios w !! id = Some u -> email u = e ->
  is_Some (UserRepository.by_email e w).
Proof.
  intros Hu He.
  destruct (UserRepository.by_email e w) eqn:Hby; [done|].
  by destruct (by_email_None e w id u Hby Hu).
Qed.

Lemma by_email_unique (e : string) (w : World) (id : Z) (u : Usuario) :
  unique_emails w ->
  usuarios w !! id = Some u -> email u = e ->
  UserRepository.by_email e w = Some u.
Proof.
  intros Huniq Hu He.
  destruct (by_email_found e w id u Hu He) as [r Hr].
  rewrite Hr. f_equal.
  apply by_email_stored in Hr as [Hre [j Hj]].
  assert (j = id) as -> by (eapply Huniq; [done..|congruence]).
  congruence.
Qed.

Lemma email_taken_false (id : Z) (data : UpdateUserInput) (w : World) (e : string) :
  UserRepository.email_taken id data w = false ->
  upd_email data = Some e ->
  forall j v, usuarios w !! j = Some v -> email v = e -> usuario_id v = id.
Proof.
  unfold UserRepository.email_taken. intros Hfree Hd j v Hv He.
  rewrite Hd in Hfree.
  apply bool_decide_eq_false in Hfree.
  destruct (decide (usuario_id v = id)) as [|Hne]; [done|].
  destruct Hfree. apply Exists_exists. exists v. split; [|done].
  apply rows_stored. by exists j.
Qed.

Lemma update_keeps_table_invariants (id : Z) (d : UpdateUserInput) (w : World) :
  keyed w -> unique_emails w ->
  keyed (UserRepository.update id d w).2
  /\ unique_emails (UserRepository.update id d w).2.
Proof.
  intros Hk Hu. unfold UserRepository.update.
  destruct (usuarios w !! id) as [u|] eqn:Hid; simpl; [|done].
  destruct (UserRepository.email_taken id d w) eqn:Htaken; simpl; [done|].
  split.
  - intros j v. simpl. rewrite lookup_insert. case_decide as Hj.
    + intros [= <-]. simpl. subst j. by apply Hk.
    + apply Hk.
  - assert (Hother : forall j v, j <> id -> usuarios w !! j = Some v ->
              email v <> email (UserRepository.patch d u)).
    { intros j v Hj Hv He. simpl in He.
      destruct (upd_email d) as [e|] eqn:Hd; simpl in He.
      - pose proof (email_taken_false id d w e Htaken Hd j v Hv He) as Hvid.
        apply Hk in Hv. congruence.
      - apply Hj. eapply Hu; [done..|congruence]. }
    intros i j a b. simpl. rewrite !lookup_insert.
    destruct (decide (id = i)) as [<-|Hi], (decide (id = j)) as [<-|Hj];
      try done.
    + intros [= <-] Hb He. by destruct (Hother j b ltac:(done) Hb).
    + intros Ha [= <-] He. by destruct (Hother i a ltac:(done) Ha).
    + apply Hu.
Qed.

Section UserTable.
Context `{Primitives}.

Lemma getUserById_lookup (id : Z) (w : World) :
  UserService.getUserById id w
  = (match usuarios w !! id with
     | Some u =>
         if ativo u then Ok (userWithoutPassword (obj_of_usuario u))
         else Err (new_Error "Usuário não encontrado")
     | None => Err (new_Error "Usuário não encontrado")
     end, w).
Proof.
  unfold UserService.getUserById, UserRepository.findById. run.
  destruct (usuarios w !! id) as [u|]; simpl; [|done].
  by destruct (ativo u).
Qed.

(** The store after a call that goes through [update] of the repository
    is the one before it, or the one [update] leaves for some patch. *)
Definition through_update (id : Z) (w w' : World) : Prop :=
  w' = w \/ exists d, w' = (UserRepository.update id d w).2.

Lemma updateUser_through_update (id : Z) (data : UpdateUserInput) (env : Env)
                                (w : World) :
  through_update id w (UserService.updateUser id data env w).2.
Proof.
  unfold UserService.updateUser. unfold bind at 1.
  rewrite getUserById_lookup.
  destruct (usuarios w !! id) as [u|]; simpl; [|by left].
  destruct (ativo u); simpl; [|by left].
  assert (Hfin : forall d,
            through_update id w
              (bind (UserRepository.update id d)
                 (fun updatedUser =>
                    match updatedUser with
                    | None => throw (new_Error "Erro ao atualizar usuário")
                    | Some u => ret (userWithoutPassword (obj_of_usuario u))
                    end) w).2).
  { intros d. right. exists d. unfold bind.
    by destruct (UserRepository.update id d w) as [[[?|]|?] ?]. }
  unfold bind at 1.
  destruct (UserService.truthy (upd_email data)) as [e|].
  - unfold UserRepository.emailExists, bind at 1. simpl.
    destruct (existsb _ _); simpl; [by left|]. apply Hfin.
  - unfold ret at 1. apply Hfin.
Qed.

Lemma changePassword_through_update (uid : Z) (data : ChangePasswordInput)
                                    (env : Env) (w : World) :
  through_update uid w (UserService.changePassword uid data env w).2.
Proof.
  unfold UserService.changePassword, UserRepository.findById,
    UserRepository.updatePassword.
  unfold bind at 1. simpl.
  destruct (usuarios w !! uid) as [u|]; simpl; [|by left].
  destruct (ativo u); simpl; [|by left].
  destruct (comparePassword _ _); simpl; [|by left].
  right. eexists. unfold bind, ret.
  destruct (UserRepository.update uid _ w) as [[r|e] w2] eqn:Hupd; simpl.
  - destruct (bool_decide _); simpl; by rewrite Hupd.
  - by rewrite Hupd.
Qed.

Lemma deactivateUser_through_update (id : Z) (w : World) :
  through_update id w (UserService.deactivateUser id w).2.
Proof.
  unfold UserService.deactivateUser, UserRepository.deactivate.
  unfold bind at 1. rewrite getUserById_lookup.
  destruct (usuarios w !! id) as [u|]; simpl; [|by left].
  destruct (ativo u); simpl; [|by left].
  right. eexists. unfold bind, ret.
  destruct (UserRepository.update id _ w) as [[r|e] w2] eqn:Hupd; simpl.
  - destruct (bool_decide _); simpl; by rewrite Hupd.
  - by rewrite Hupd.
Qed.

Lemma through_update_invariants (id : Z) (w w' : World) :
  through_update id w w' ->
  keyed w -> unique_emails w -> keyed w' /\ unique_emails w'.
Proof.
  intros [-> | [d ->]] Hk Hu; [done|].
  by apply update_keeps_table_invariants.
Qed.

Lemma register_invariants (data : RegisterUserInput) (env : Env) (now : Z)
                          (w : World) :
  keyed w -> unique_emails w ->
  keyed (UserService.register data env now w).2
  /\ unique_emails (UserService.register data env now w).2.
Proof.
  intros Hk Hu.
  unfold UserService.register, UserRepository.findByEmail, UserRepository.create.
  run. destruct (UserRepository.by_email (reg_email data) w) eqn:He; simpl; [done|].
  rewrite He. simpl. split.
  - intros j v. simpl. rewrite lookup_insert. case_decide as Hj; [|apply Hk].
    by intros [= <-].
  - intros i j a b. simpl. rewrite !lookup_insert.
    destruct (decide (usuario_seq w + 1 = i)) as [<-|Hi],
             (decide (usuario_seq w + 1 = j)) as [<-|Hj]; try done.
    + intros [= <-] Hb Heq. simpl in Heq.
      by destruct (by_email_None _ _ _ _ He Hb).
    + intros Ha [= <-] Heq. simpl in Heq.
      by destruct (by_email_None _ _ _ _ He Ha).
    + apply Hu.
Qed.

Lemma served_invariants (w w' : World) :
  served w w' -> keyed w /\ unique_emails w -> keyed w' /\ unique_emails w'.
Proof.
  intros Hstep [Hk Hu].
  destruct Hstep as [body data env now w Hbody | data env now w
                    | id raw_role data env w Hraw | uid data env w | id w
                    | w w' Hsame].
  - by apply register_invariants.
  - by rewrite login_reads.
  - eapply through_update_invariants; [apply updateUser_through_update|done..].
  - eapply through_update_invariants; [apply changePassword_through_update|done..].
  - eapply through_update_invariants; [apply deactivateUser_through_update|done..].
  - unfold keyed, unique_emails. rewrite Hsame. done.
Qed.

Lemma run_invariants (w w' : World) :
  rtc served w w' -> keyed w /\ unique_emails w -> keyed w' /\ unique_emails w'.
Proof.
  induction 1 as [|w1 w2 w3 Hstep _ IH]; [done|].
  intros Hinv. apply IH. exact (served_invariants w1 w2 Hstep Hinv).
Qed.

Lemma empty_table : keyed empty_world /\ unique_emails empty_world.
Proof.
  split.
  - intros i u Hu. simpl in Hu. by rewrite lookup_empty in Hu.
  - intros i j u v Hu. simpl in Hu. by rewrite lookup_empty in Hu.
Qed.

(** In every store the system gets to from the empty one, no two users
    have the same email, active or not, and every user is stored under its
    own id. *)
Theorem reachable_unique_emails (w : World) :
  reachable w -> unique_emails w /\ keyed w.
Proof.
  unfold reachable. intros Hrun.
  destruct (run_invariants empty_world w Hrun empty_table) as [Hk Hu].
  by split.
Qed.

End UserTable.

Lemma reachable_unique_emails_witness :
  unique_emails world_users /\ keyed world_users.
Proof. apply (reachable_unique_emails world_users world_users_reachable). Defined.

(** ** Users: registration, login, deactivation *)

(** The patch of [deactivate]. *)
Definition off_patch : UpdateUserInput :=
  mkUpdateUserInput None None None None (Some false).

(** The patch of [activate]. *)
Definition on_patch : UpdateUserInput :=
  mkUpdateUserInput None None None None (Some true).

Lemma world_eta_usuarios (w : World) :
  with_usuarios (usuarios w) (usuario_seq w) w = w.
Proof. by destruct w. Qed.

Lemma update_without_email (id : Z) (d : UpdateUserInput) (w : World) (u : Usuario) :
  usuarios w !! id = Some u ->
  upd_email d = None ->
  UserRepository.update id d w
  = (Ok (Some (UserRepository.patch d u)),
     with_usuarios (<[id := UserRepository.patch d u]> (usuarios w))
                   (usuario_seq w) w).
Proof.
  intros Hu Hd. unfold UserRepository.update, UserRepository.email_taken.
  by rewrite Hu, Hd.
Qed.

Section UserFlows.
Context `{Primitives}.

Lemma register_conflict (data : RegisterUserInput) (env : Env) (now : Z)
                        (w : World) (id : Z) (u : Usuario) :
  usuarios w !! id = Some u ->
  email u = reg_email data ->
  UserService.register data env now w
  = (Err (new_Error "Email já está em uso"), w).
Proof.
  intros Hu He.
  destruct (by_email_found (reg_email data) w id u Hu He) as [r Hr].
  unfold UserService.register, UserRepository.findByEmail. run.
  by rewrite Hr.
Qed.

(** [register] refuses an email that a stored user has, whether that
    user is active or not, with the error ['Email já está em uso'] and
    without writing; through the controller the refusal has status 500. *)
Theorem register_refuses_taken_email (c : Context) (data : RegisterUserInput)
                                     (w : World) (id : Z) (u : Usuario) :
  usuarios w !! id = Some u ->
  email u = reg_email data ->
  (forall env now,
     UserService.register data env now w
     = (Err (new_Error "Email já está em uso"), w))
  /\ UserController.register c data w
     = (failure "Email já está em uso" 500, w).
Proof.
  intros Hu He. split.
  - intros env now. by eapply register_conflict.
  - unfold UserController.register, handler, bind.
    by rewrite (register_conflict data _ _ w id u Hu He).
Qed.

Lemma login_stored (data : LoginUserInput) (env : Env) (now : Z) (w : World)
                   (id : Z) (u : Usuario) :
  unique_emails w ->
  usuarios w !! id = Some u ->
  email u = login_email data ->
  UserService.login data env now w
  = (if ativo u && comparePassword (login_senha data) (senha u)
     then Ok (userWithoutPassword (obj_of_usuario u),
              generateToken (UserService.payload_of u) env now)
     else Err invalid_credentials, w).
Proof.
  intros Huniq Hu He.
  unfold UserService.login, UserRepository.findByEmail. run.
  rewrite (by_email_unique _ w id u Huniq Hu He). simpl.
  destruct (ativo u); simpl; [|done].
  by destruct (comparePassword _ _).
Qed.

(** After a registration, the same email and password log in: if the
    library compares the password with its own hash as equal, [login]
    answers the view of the user [register] answered and a token over the
    same payload; a password the library compares as different is refused. *)
Theorem register_then_login (data : RegisterUserInput) (env : Env) (now : Z)
                            (w : World) :
  unique_emails w ->
  UserRepository.by_email (reg_email data) w = None ->
  comparePassword (reg_senha data) (hashPassword (reg_senha data) env) = true ->
  exists u w',
    UserService.register data env now w
    = (Ok (userWithoutPassword (obj_of_usuario u),
           generateToken (UserService.payload_of u) env now), w')
    /\ (forall now',
          UserService.login (mkLoginUserInput (reg_email data) (reg_senha data))
                            env now' w'
          = (Ok (userWithoutPassword (obj_of_usuario u),
                 generateToken (UserService.payload_of u) env now'), w'))
    /\ (forall other now',
          comparePassword other (hashPassword (reg_senha data) env) = false ->
          UserService.login (mkLoginUserInput (reg_email data) other) env now' w'
          = (Err invalid_credentials, w')).
Proof.
  intros Huniq Hfree Hcmp.
  pose (hashed := mkRegisterUserInput (reg_nome data) (reg_email data)
                    (hashPassword (reg_senha data) env) (reg_role data)).
  exists (UserRepository.new_row w hashed), (UserRepository.create hashed w).2.
  assert (Hreg : UserService.register data env now w
                 = (Ok (userWithoutPassword
                          (obj_of_usuario (UserRepository.new_row w hashed)),
                        generateToken
                          (UserService.payload_of (UserRepository.new_row w hashed))
                          env now),
                    (UserRepository.create hashed w).2)).
  { unfold UserService.register, UserRepository.findByEmail,
      UserRepository.create. run. rewrite Hfree. simpl. by rewrite Hfree. }
  assert (Huniq' : unique_emails (UserRepository.create hashed w).2).
  { unfold UserRepository.create. simpl. rewrite Hfree. simpl.
    intros i j a b. simpl. rewrite !lookup_insert.
    destruct (decide (usuario_seq w + 1 = i)) as [<-|Hi],
             (decide (usuario_seq w + 1 = j)) as [<-|Hj]; try done.
    - intros [= <-] Hb Heq. simpl in Heq.
      by destruct (by_email_None _ _ _ _ Hfree Hb).
    - intros Ha [= <-] Heq. simpl in Heq.
      by destruct (by_email_None _ _ _ _ Hfree Ha).
    - apply Huniq. }
  assert (Hstored : usuarios (UserRepository.create hashed w).2
                      !! (usuario_seq w + 1)
                    = Some (UserRepository.new_row w hashed)).
  { unfold UserRepository.create. simpl. rewrite Hfree. simpl.
    by rewrite lookup_insert_eq. }
  split; [done|]. split.
  - intros now'.
    rewrite (login_stored (mkLoginUserInput (reg_email data) (reg_senha data))
               env now' _ _ _ Huniq' Hstored eq_refl).
    simpl. by rewrite Hcmp.
  - intros other now' Hother.
    rewrite (login_stored (mkLoginUserInput (reg_email data) other)
               env now' _ _ _ Huniq' Hstored eq_refl).
    simpl. by rewrite Hother.
Qed.

Lemma deactivateUser_active (id : Z) (w : World) (u : Usuario) :
  usuarios w !! id = Some u ->
  ativo u = true ->
  UserService.deactivateUser id w
  = (Ok tt,
     with_usuarios (<[id := UserRepository.patch off_patch u]> (usuarios w))
                   (usuario_seq w) w).
Proof.
  intros Hu Ha.
  unfold UserService.deactivateUser, UserRepository.deactivate.
  unfold bind at 1. rewrite getUserById_lookup, Hu, Ha.
  unfold bind at 1. unfold bind at 1.
  by rewrite (update_without_email id _ w u Hu).
Qed.

Lemma updateUser_gone (id : Z) (data : UpdateUserInput) (env : Env) (w : World) :
  (forall u, usuarios w !! id = Some u -> ativo u = false) ->
  UserService.updateUser id data env w
  = (Err (new_Error "Usuário não encontrado"), w).
Proof.
  intros Hoff. unfold UserService.updateUser. unfold bind at 1.
  rewrite getUserById_lookup.
  destruct (usuarios w !! id) as [u|] eqn:Hu; [|done].
  by rewrite (Hoff u).
Qed.

(** A user that does not exist or is not active cannot change a
    password, whatever the passwords given. *)
Lemma changePassword_gone (uid : Z) (data : ChangePasswordInput) (env : Env)
                          (w : World) :
  (forall u, usuarios w !! uid = Some u -> ativo u = false) ->
  UserService.changePassword uid data env w
  = (Err (new_Error "Usuário não encontrado"), w).
Proof.
  intros Hoff.
  unfold UserService.changePassword, UserRepository.findById.
  unfold bind at 1. simpl.
  destruct (usuarios w !! uid) as [u|] eqn:Hu; [|done].
  by rewrite (Hoff u).
Qed.

(** Deactivation is a soft delete with no way back through the service.
    After [deactivateUser] of an active user of a store with unique
    emails, the row is kept with the flag off and nothing else changed;
    [login] with any password fails with the generic error, [getUserById]
    and a second [deactivateUser] fail as for a user that does not exist,
    the email stays taken for [register], and [updateUser], even with
    [ativo: true] as [activate] sends it, and [changePassword] fail too. *)
Theorem deactivation_is_final (id : Z) (w : World) (u : Usuario) :
  unique_emails w -> keyed w ->
  usuarios w !! id = Some u ->
  ativo u = true ->
  exists w',
    UserService.deactivateUser id w = (Ok tt, w')
    /\ usuarios w' = <[id := UserRepository.patch off_patch u]> (usuarios w)
    /\ (forall senha env now,
          UserService.login (mkLoginUserInput (email u) senha) env now w'
          = (Err invalid_credentials, w'))
    /\ UserService.getUserById id w'
       = (Err (new_Error "Usuário não encontrado"), w')
    /\ UserService.deactivateUser id w'
       = (Err (new_Error "Usuário não encontrado"), w')
    /\ (forall data env now, reg_email data = email u ->
          UserService.register data env now w'
          = (Err (new_Error "Email já está em uso"), w'))
    /\ (forall data env,
          UserService.updateUser id data env w'
          = (Err (new_Error "Usuário não encontrado"), w'))
    /\ (forall data env,
          UserService.changePassword id data env w'
          = (Err (new_Error "Usuário não encontrado"), w'))
    /\ (forall c,
          UserController.activate c id w'
          = (failure "Usuário não encontrado" 500, w')).
Proof.
  intros Huniq Hkeyed Hu Ha.
  eexists. split; [by apply deactivateUser_active|].
  set (w' := with_usuarios _ _ w).
  assert (Hu' : usuarios w' !! id = Some (UserRepository.patch off_patch u)).
  { subst w'. simpl. by rewrite lookup_insert_eq. }
  assert (Huniq' : unique_emails w').
  { pose proof (update_keeps_table_invariants id off_patch w Hkeyed Huniq)
      as [_ Hq].
    by rewrite (update_without_email id off_patch w u Hu) in Hq. }
  assert (Hoff : forall v, usuarios w' !! id = Some v -> ativo v = false).
  { intros v. rewrite Hu'. by intros [= <-]. }
  split; [done|]. split; [|split; [|split; [|split; [|split; [|split]]]]].
  - intros senha env now.
    by rewrite (login_stored (mkLoginUserInput (email u) senha) env now w' id
                  _ Huniq' Hu' eq_refl).
  - by rewrite getUserById_lookup, Hu'.
  - unfold UserService.deactivateUser. unfold bind at 1.
    by rewrite getUserById_lookup, Hu'.
  - intros data env now He. eapply register_conflict; [exact Hu'|].
    by rewrite He.
  - intros data env. by apply updateUser_gone.
  - intros data env. by apply changePassword_gone.
  - intros c. unfold UserController.activate, handler, bind.
    by rewrite updateUser_gone.
Qed.

End UserFlows.

Lemma world_users_table : unique_emails world_users /\ keyed world_users.
Proof.
  destruct (run_invariants empty_world world_users world_users_reachable
                           empty_table) as [Hk Hu].
  by split.
Qed.

Lemma register_refuses_taken_email_witness :
  UserService.register bia_data test_env 9 world_users
  = (Err (new_Error "Email já está em uso"), world_users)
  /\ UserController.register (request_of ana) bia_data world_users
     = (failure "Email já está em uso" 500, world_users).
Proof.
  destruct (register_refuses_taken_email (request_of ana) bia_data world_users
              2 bia_row (proj2 world_users_rows) eq_refl) as [Hs Hc].
  split; [apply Hs | exact Hc].
Defined.

Lemma unique_emails_empty : unique_emails empty_world.
Proof. intros i j u v Hu. simpl in Hu. by rewrite lookup_empty in Hu. Qed.

Lemma register_then_login_witness :
  exists u w',
    UserService.register ana_data test_env 1 empty_world
    = (Ok (userWithoutPassword (obj_of_usuario u),
           generateToken (UserService.payload_of u) test_env 1), w')
    /\ UserService.login (mkLoginUserInput "ana@x.com" "Senha123") test_env 8 w'
       = (Ok (userWithoutPassword (obj_of_usuario u),
              generateToken (UserService.payload_of u) test_env 8), w')
    /\ UserService.login (mkLoginUserInput "ana@x.com" "senha123") test_env 8 w'
       = (Err invalid_credentials, w').
Proof.
  destruct (register_then_login ana_data test_env 1 empty_world
              unique_emails_empty eq_refl)
    as (u & w' & Hreg & Hin & Hout).
  - vm_compute. reflexivity.
  - exists u, w'. split; [exact Hreg|]. split; [apply Hin|].
    apply Hout. vm_compute. reflexivity.
Defined.

Lemma deactivation_is_final_witness :
  exists w',
    UserService.deactivateUser 1 world_users = (Ok tt, w')
    /\ UserService.login (mkLoginUserInput "ana@x.com" "Senha123") test_env 9 w'
       = (Err invalid_credentials, w')
    /\ UserController.activate (request_of chefe) 1 w'
       = (failure "Usuário não encontrado" 500, w').
Proof.
  destruct (deactivation_is_final 1 world_users ana_row
              (proj1 world_users_table) (proj2 world_users_table)
              (proj1 world_users_rows) eq_refl)
    as (w' & Hd & _ & Hlogin & _ & _ & _ & _ & _ & Hact).
  exists w'. split; [exact Hd|]. split; [apply (Hlogin "Senha123") | apply Hact].
Defined.

(** ** Users: passwords and updates *)

Section UserUpdates.
Context `{Primitives}.

(** The row of [u] with another stored password. *)
Definition with_senha (hash : string) (u : Usuario) : Usuario :=
  UserRepository.patch (mkUpdateUserInput None None (Some hash) None None) u.

(** [changePassword] of an active user.  If the library does not compare
    the current password with the stored hash as equal, it fails with
    ['Senha atual incorreta'] and writes nothing.  If it does, the stored
    password becomes the hash of the new one and no other column changes;
    the confirmation field plays no part. *)
Theorem changePassword_outcome (uid : Z) (data : ChangePasswordInput) (env : Env)
                               (w : World) (u : Usuario) :
  usuarios w !! uid = Some u ->
  ativo u = true ->
  (comparePassword (senhaAtual data) (senha u) = false ->
   UserService.changePassword uid data env w
   = (Err (new_Error "Senha atual incorreta"), w))
  /\
  (comparePassword (senhaAtual data) (senha u) = true ->
   exists w',
     UserService.changePassword uid data env w = (Ok tt, w')
     /\ usuarios w'
        = <[uid := with_senha (hashPassword (novaSenha data) env) u]> (usuarios w)
     /\ senha (with_senha (hashPassword (novaSenha data) env) u)
        = hashPassword (novaSenha data) env
     /\ email (with_senha (hashPassword (novaSenha data) env) u) = email u
     /\ role (with_senha (hashPassword (novaSenha data) env) u) = role u
     /\ ativo (with_senha (hashPassword (novaSenha data) env) u) = true).
Proof.
  intros Hu Ha.
  assert (Hrun : UserService.changePassword uid data env w
                 = if comparePassword (senhaAtual data) (senha u)
                   then (Ok tt,
                         with_usuarios
                           (<[uid := with_senha (hashPassword (novaSenha data) env) u]>
                              (usuarios w)) (usuario_seq w) w)
                   else (Err (new_Error "Senha atual incorreta"), w)).
  { unfold UserService.changePassword, UserRepository.findById,
      UserRepository.updatePassword, bind.
    rewrite Hu, Ha. cbn [negb].
    destruct (comparePassword (senhaAtual data) (senha u)); cbn [negb]; [|done].
    by rewrite (update_without_email uid _ w u Hu). }
  rewrite Hrun. split.
  - by intros ->.
  - intros ->. eexists. split; [reflexivity|]. by simpl.
Qed.

(** The patch [updateUser] hands to the repository: the one it was
    given, with a password that is present and not empty replaced by its
    hash. *)
Definition hashed_patch (data : UpdateUserInput) (env : Env) : UpdateUserInput :=
  match UserService.truthy (upd_senha data) with
  | Some s =>
      mkUpdateUserInput (upd_nome data) (upd_email data)
                        (Some (hashPassword s env)) (upd_role data)
                        (upd_ativo data)
  | None => data
  end.

Lemma emailExists_other (e : string) (id : Z) (w : World) (j : Z) (v : Usuario) :
  usuarios w !! j = Some v -> email v = e -> usuario_id v <> id ->
  UserRepository.emailExists e (Some id) w = (Ok true, w).
Proof.
  intros Hv He Hne. unfold UserRepository.emailExists. f_equal. f_equal.
  apply existsb_exists. exists v. split.
  - apply list_elem_of_In, rows_stored. by exists j.
  - rewrite bool_decide_eq_true_2 by done. simpl.
    rewrite (bool_decide_eq_true_2 (usuario_id v ≠ id)) by done.
    apply orb_true_r.
Qed.

Lemma emailExists_free (e : string) (id : Z) (w : World) :
  id <> 0 ->
  (forall j v, usuarios w !! j = Some v -> email v = e -> usuario_id v = id) ->
  UserRepository.emailExists e (Some id) w = (Ok false, w).
Proof.
  intros Hid Hfree. unfold UserRepository.emailExists. f_equal. f_equal.
  apply not_true_is_false. intros Hex.
  apply existsb_exists in Hex as [v [Hin Hkeep]].
  apply list_elem_of_In, rows_stored in Hin as [j Hj].
  apply andb_true_iff in Hkeep as [He Hx].
  apply bool_decide_eq_true in He.
  apply orb_true_iff in Hx as [Hx|Hx]; apply bool_decide_eq_true in Hx;
    [done|]. by apply Hx, (Hfree j v).
Qed.

Lemma email_taken_free (id : Z) (d : UpdateUserInput) (w : World) :
  (forall e j v, upd_email d = Some e -> usuarios w !! j = Some v ->
                 email v = e -> usuario_id v = id) ->
  UserRepository.email_taken id d w = false.
Proof.
  intros Hfree. unfold UserRepository.email_taken.
  destruct (upd_email d) as [e|] eqn:Hd; [|done].
  apply bool_decide_eq_false. intros Hex.
  apply Exists_exists in Hex as [v [Hin [He Hne]]].
  apply rows_stored in Hin as [j Hj]. by apply Hne, (Hfree e j v).
Qed.

(** [updateUser] of an active user.  An email in the patch that another
    user has is refused with ['Email já está em uso'] before anything is
    written.  When no other user has the email of the patch, the update
    succeeds and the stored row is the old one under the patch, where a
    password that is present and not empty has been replaced by its hash:
    the password of the request is never stored as given. *)
Theorem updateUser_outcome (id : Z) (data : UpdateUserInput) (env : Env)
                           (w : World) (u : Usuario) :
  usuarios w !! id = Some u ->
  ativo u = true ->
  (forall e j v,
     UserService.truthy (upd_email data) = Some e ->
     usuarios w !! j = Some v -> email v = e -> usuario_id v <> id ->
     UserService.updateUser id data env w
     = (Err (new_Error "Email já está em uso"), w))
  /\
  (id <> 0 ->
   (forall e j v, upd_email data = Some e -> usuarios w !! j = Some v ->
                  email v = e -> usuario_id v = id) ->
   UserService.updateUser id data env w
   = (Ok (userWithoutPassword
            (obj_of_usuario (UserRepository.patch (hashed_patch data env) u))),
      with_usuarios
        (<[id := UserRepository.patch (hashed_patch data env) u]> (usuarios w))
        (usuario_seq w) w)
   /\ forall s, UserService.truthy (upd_senha data) = Some s ->
        senha (UserRepository.patch (hashed_patch data env) u)
        = hashPassword s env).
Proof.
  intros Hu Ha. split.
  - intros e j v He Hv Hev Hne.
    unfold UserService.updateUser. unfold bind at 1.
    rewrite getUserById_lookup, Hu, Ha. unfold bind at 1. rewrite He.
    unfold bind at 1.
    by rewrite (emailExists_other e id w j v Hv Hev Hne).
  - intros Hid Hfree. split.
    + unfold UserService.updateUser. unfold bind at 1.
      rewrite getUserById_lookup, Hu, Ha. unfold bind at 1.
      assert (Hcheck :
        (match UserService.truthy (upd_email data) with
         | Some e =>
             emailExists <- UserRepository.emailExists e (Some id) ;;
             if (emailExists : bool)
             then throw (new_Error "Email já está em uso")
             else ret tt
         | None => ret tt
         end) w = (Ok tt, w)).
      { destruct (UserService.truthy (upd_email data)) as [e|] eqn:He; [|done].
        unfold bind.
        rewrite (emailExists_free e id w Hid); [done|].
        intros j v Hv Hev. apply (Hfree e j v); [|done..].
        unfold UserService.truthy in He.
        destruct (upd_email data) as [x|]; [|done].
        by case_decide; simplify_eq. }
      rewrite Hcheck. unfold bind.
      fold (hashed_patch data env).
      unfold UserRepository.update. rewrite Hu.
      rewrite email_taken_free; [done|].
      intros e j v He. apply Hfree.
      unfold hashed_patch in He.
      by destruct (UserService.truthy (upd_senha data)).
    + intros s Hs. unfold hashed_patch. by rewrite Hs.
Qed.

End UserUpdates.

Lemma changePassword_outcome_witness :
  UserService.changePassword 1 (mkChangePasswordInput "errada" "Nova1234" "x")
                             test_env world_users
  = (Err (new_Error "Senha atual incorreta"), world_users)
  /\ exists w',
       UserService.changePassword 1
         (mkChangePasswordInput "Senha123" "Nova1234" "x") test_env world_users
       = (Ok tt, w')
       /\ senha <$> usuarios w' !! 1 = Some "$2a$12$Nova1234".
Proof.
  split.
  - apply (proj1 (changePassword_outcome 1
                    (mkChangePasswordInput "errada" "Nova1234" "x") test_env
                    world_users ana_row (proj1 world_users_rows) eq_refl)).
    vm_compute. reflexivity.
  - destruct (proj2 (changePassword_outcome 1
                       (mkChangePasswordInput "Senha123" "Nova1234" "x") test_env
                       world_users ana_row (proj1 world_users_rows) eq_refl))
      as (w' & Hrun & Htable & _).
    + vm_compute. reflexivity.
    + exists w'. split; [exact Hrun|]. rewrite Htable, lookup_insert_eq.
      vm_compute. reflexivity.
Defined.

Definition patch_senha : UpdateUserInput :=
  mkUpdateUserInput None None (Some "Nova1234") None None.

Definition patch_email_bia : UpdateUserInput :=
  mkUpdateUserInput None (Some "bia@x.com") None None None.

Lemma updateUser_outcome_witness :
  UserService.updateUser 1 patch_email_bia test_env world_users
  = (Err (new_Error "Email já está em uso"), world_users)
  /\ senha <$> usuarios (UserService.updateUser 1 patch_senha test_env
                           world_users).2 !! 1
     = Some "$2a$12$Nova1234".
Proof.
  split.
  - apply (proj1 (updateUser_outcome 1 patch_email_bia test_env world_users
                    ana_row (proj1 world_users_rows) eq_refl)
             "bia@x.com" 2 bia_row);
      [reflexivity | exact (proj2 world_users_rows) | reflexivity | discriminate].
  - destruct (proj2 (updateUser_outcome 1 patch_senha test_env world_users
                       ana_row (proj1 world_users_rows) eq_refl))
      as [Hrun _]; [discriminate | discriminate |].
    rewrite Hrun. simpl. rewrite lookup_insert_eq. vm_compute. reflexivity.
Defined.

(** ** Users: listing and the controller *)



Section UserListing.
Context `{Primitives}.

Lemma updateUser_without_email (id : Z) (data : UpdateUserInput) (env : Env)
                               (w : World) (u : Usuario) :
  usuarios w !! id = Some u ->
  ativo u = true ->
  upd_email data = None ->
  UserService.updateUser id data env w
  = (Ok (userWithoutPassword
           (obj_of_usuario (UserRepository.patch (hashed_patch data env) u))),
     with_usuarios
       (<[id := UserRepository.patch (hashed_patch data env) u]> (usuarios w))
       (usuario_seq w) w).
Proof.
  intros Hu Ha Hd.
  assert (Hhd : upd_email (hashed_patch data env) = None).
  { unfold hashed_patch. by destruct (UserService.truthy (upd_senha data)). }
  assert (Ht : UserService.truthy (upd_email data) = None) by by rewrite Hd.
  unfold UserService.updateUser, bind.
  rewrite getUserById_lookup, Hu, Ha, Ht. cbn [ret].
  fold (hashed_patch data env).
  by rewrite (update_without_email id _ w u Hu Hhd).
Qed.


Lemma login_Err (data : LoginUserInput) (env : Env) (now : Z) (w : World)
                (e : Error) :
  (UserService.login data env now w).1 = Err e -> e = invalid_credentials.
Proof.
  unfold UserService.login, UserRepository.findByEmail, bind.
  destruct (UserRepository.by_email (login_email data) w) as [u|];
    [|by intros [= <-]].
  destruct (ativo u); cbn [negb]; [|by intros [= <-]].
  destruct (comparePassword _ _); cbn [negb]; [done | by intros [= <-]].
Qed.

(** What stands between a caller and the record of another user in
    [update] and [changePassword] is the comparison of ids: a caller
    whose role is not the string ['ADMIN'], so any caller with a role the
    system issues, is answered 403 for any id but its own, and nothing is
    written.  [deactivate] refuses the caller's own id with status 400.  A
    login the service refuses, whatever the cause, is answered with status
    500 and the generic message; one it accepts with 200. *)
Theorem user_controller_answers (c : Context) (id : Z) (w : World) :
  (jwt_role <$> ctx_user c <> Some "ADMIN" ->
   userId <$> ctx_user c <> Some id ->
   (forall data,
      UserController.update c id data w
      = (mkResponse (Plain_error "Acesso negado") 403, w))
   /\ (forall data,
         UserController.changePassword c id data w
         = (mkResponse (Plain_error "Acesso negado") 403, w)))
  /\
  (forall user, ctx_user c = Some user -> issued_role (jwt_role user) ->
     jwt_role <$> ctx_user c <> Some "ADMIN")
  /\
  (userId <$> ctx_user c = Some id ->
   UserController.deactivate c id w
   = (mkResponse (Plain_error "Não é possível desativar sua própria conta") 400,
      w))
  /\
  (forall data,
     UserController.login c data w
     = (match (UserService.login data (ctx_env c) (ctx_now c) w).1 with
        | Ok r => mkResponse (Success r (Some "Login realizado com sucesso")) 200
        | Err _ => failure "Credenciais inválidas" 500
        end, w)).
Proof.
  split; [|split; [|split]].
  - intros Hrole Hid. split; intros data.
    + unfold UserController.update, handler.
      by rewrite !bool_decide_eq_true_2.
    + unfold UserController.changePassword, handler.
      by rewrite !bool_decide_eq_true_2.
  - intros user -> [Hr | Hr]; simpl; rewrite Hr; discriminate.
  - intros Hid. unfold UserController.deactivate, handler.
    by rewrite bool_decide_eq_true_2.
  - intros data. unfold UserController.login, handler, bind.
    pose proof (login_reads data (ctx_env c) (ctx_now c) w) as Hw.
    pose proof (login_Err data (ctx_env c) (ctx_now c) w) as He.
    destruct (UserService.login data (ctx_env c) (ctx_now c) w) as [[r|e] w'].
    + simpl in Hw. by subst.
    + simpl in Hw. subst. by rewrite (He e eq_refl).
Qed.

(** [activate] changes nothing: for a user that is missing or not active
    it answers 500 as for a user that does not exist, and for an active
    user it writes the row back as it was. *)
Theorem activate_changes_nothing (c : Context) (id : Z) (w : World) :
  (UserController.activate c id w).2 = w
  /\ ((forall u, usuarios w !! id = Some u -> ativo u = false) ->
      UserController.activate c id w
      = (failure "Usuário não encontrado" 500, w))
  /\ (forall u, usuarios w !! id = Some u -> ativo u = true ->
      UserController.activate c id w
      = (mkResponse (Success (userWithoutPassword (obj_of_usuario u))
                             (Some "Usuário ativado com sucesso")) 200, w)).
Proof.
  assert (Hoff : (forall u, usuarios w !! id = Some u -> ativo u = false) ->
            UserController.activate c id w
            = (failure "Usuário não encontrado" 500, w)).
  { intros Hgone. unfold UserController.activate, handler, bind.
    by rewrite updateUser_gone. }
  assert (Hon : forall u, usuarios w !! id = Some u -> ativo u = true ->
            UserController.activate c id w
            = (mkResponse (Success (userWithoutPassword (obj_of_usuario u))
                                   (Some "Usuário ativado com sucesso")) 200, w)).
  { intros u Hu Ha.
    assert (Hsame : UserRepository.patch
                      (mkUpdateUserInput None None None None (Some true)) u = u).
    { destruct u. simpl in Ha. by subst. }
    unfold UserController.activate, handler, bind.
    rewrite (updateUser_without_email id _ (ctx_env c) w u Hu Ha) by done.
    cbn [hashed_patch UserService.truthy upd_senha].
    rewrite Hsame, insert_id by done. by rewrite world_eta_usuarios. }
  split; [|split; [done|done]].
  destruct (usuarios w !! id) as [u|] eqn:Hu.
  - destruct (ativo u) eqn:Ha.
    + by rewrite (Hon u).
    + rewrite Hoff; [done|]. by intros v [= <-].
  - by rewrite Hoff.
Qed.

End UserListing.


Lemma user_controller_answers_witness :
  UserController.update (request_of chefe) 1 patch_senha world_users
  = (mkResponse (Plain_error "Acesso negado") 403, world_users)
  /\ UserController.deactivate (request_of ana) 1 world_users
     = (mkResponse (Plain_error "Não é possível desativar sua própria conta") 400,
        world_users)
  /\ UserController.login (request_of ana)
                          (mkLoginUserInput "ana@x.com" "errada") world_users
     = (failure "Credenciais inválidas" 500, world_users).
Proof.
  split; [|split].
  - apply (proj1 (user_controller_answers (request_of chefe) 1 world_users));
      discriminate.
  - apply (proj1 (proj2 (proj2 (user_controller_answers (request_of ana) 1
                                  world_users)))).
    reflexivity.
  - rewrite (proj2 (proj2 (proj2 (user_controller_answers (request_of ana) 1
                                    world_users)))).
    vm_compute. reflexivity.
Defined.

Lemma activate_changes_nothing_witness :
  UserController.activate (request_of chefe) 2 world_users
  = (failure "Usuário não encontrado" 500, world_users)
  /\ (UserController.activate (request_of chefe) 1 world_users).2 = world_users.
Proof.
  split.
  - apply (proj1 (proj2 (activate_changes_nothing (request_of chefe) 2
                           world_users))).
    intros u Hu. rewrite (proj2 world_users_rows) in Hu.
    injection Hu as <-. reflexivity.
  - apply (proj1 (activate_changes_nothing (request_of chefe) 1 world_users)).
Defined.

(** ** The bearer token of a request *)

Lemma prefix_app (s t : string) : String.prefix s (s +:+ t) = true.
Proof.
  induction s as [|a s IH]; simpl; [by destruct t|].
  by destruct (ascii_dec a a).
Qed.

Lemma prefix_inv (s h : string) :
  String.prefix s h = true -> exists t, h = s +:+ t.
Proof.
  revert h. induction s as [|a s IH]; intros h Hp.
  - by exists h.
  - destruct h as [|b h]; simpl in Hp; [done|].
    destruct (ascii_dec a b) as [<-|]; [|done].
    destruct (IH h Hp) as [t ->]. by exists t.
Qed.

Lemma substring_all (t : string) : String.substring 0 (String.length t) t = t.
Proof. induction t as [|a t IH]; simpl; [done|]. by rewrite IH. Qed.

Lemma substring_after (s t : string) :
  String.substring (String.length s)
                   (String.length (s +:+ t) - String.length s) (s +:+ t) = t.
Proof.
  induction s as [|a s IH]; simpl.
  - rewrite Nat.sub_0_r. apply substring_all.
  - apply IH.
Qed.

(** [extractTokenFromHeader] answers a token exactly for a header that
    is ['Bearer '], with this case and one space, followed by the token:
    the token of ["Bearer " + t] is [t], and a header that gives the token
    [t] is ["Bearer " + t]; a missing header gives none. *)
Theorem extractTokenFromHeader_round_trip :
  (forall t, extractTokenFromHeader (Some ("Bearer " +:+ t)) = Some t)
  /\ (forall h t, extractTokenFromHeader h = Some t -> h = Some ("Bearer " +:+ t))
  /\ extractTokenFromHeader None = None
  /\ (forall t, extractTokenFromHeader (Some ("bearer " +:+ t)) = None).
Proof.
  split; [|split; [|split]].
  - intros t. unfold extractTokenFromHeader.
    rewrite prefix_app. f_equal.
    apply (substring_after "Bearer " t).
  - intros [h|] t; [|done]. unfold extractTokenFromHeader.
    destruct (String.prefix "Bearer " h) eqn:Hp; [|done].
    apply prefix_inv in Hp as [t' ->]. intros [= <-]. f_equal. f_equal.
    symmetry. apply (substring_after "Bearer " t').
  - reflexivity.
  - reflexivity.
Qed.

Section Authentication.
Context `{Primitives}.

Lemma authMiddleware_bearer (c : Context) (t : string) :
  authorization c = Some ("Bearer " +:+ t) ->
  authMiddleware c
  = if decide (t = "") then Err (HTTPException 401 "Token de acesso requerido")
    else match verifyToken t (ctx_env c) (ctx_now c) with
         | Some payload => Ok (set_user payload c)
         | None => Err (HTTPException 401 "Token inválido ou expirado")
         end.
Proof.
  intros Hh. unfold authMiddleware. rewrite Hh.
  assert (Hx : extractTokenFromHeader (Some ("Bearer " +:+ t)) = Some t).
  { unfold extractTokenFromHeader. rewrite prefix_app. f_equal.
    apply (substring_after "Bearer " t). }
  by rewrite Hx.
Qed.

Lemma authMiddleware_Ok_inv (c c' : Context) :
  authMiddleware c = Ok c' ->
  exists t payload,
    authorization c = Some ("Bearer " +:+ t) /\ t <> ""
    /\ verifyToken t (ctx_env c) (ctx_now c) = Some payload
    /\ c' = set_user payload c.
Proof.
  unfold authMiddleware.
  destruct (extractTokenFromHeader (authorization c)) as [t|] eqn:Hx; [|done].
  destruct (decide (t = "")) as [|Hne]; [done|].
  destruct (verifyToken t (ctx_env c) (ctx_now c)) as [payload|] eqn:Hv; [|done].
  intros [= <-]. exists t, payload. repeat split; try done.
  destruct (authorization c) as [h|]; [|done].
  unfold extractTokenFromHeader in Hx.
  destruct (String.prefix "Bearer " h) eqn:Hp; [|done].
  apply prefix_inv in Hp as [t' ->]. f_equal. f_equal.
  injection Hx as <-. symmetry. apply (substring_after "Bearer " t').
Qed.

Lemma authMiddleware_Err_inv (c : Context) (e : Error) :
  authMiddleware c = Err e -> status e = Some 401.
Proof.
  unfold authMiddleware.
  destruct (extractTokenFromHeader (authorization c)) as [t|]; [|by intros [= <-]].
  destruct (decide (t = "")); [by intros [= <-]|].
  destruct (verifyToken t (ctx_env c) (ctx_now c)); [done | by intros [= <-]].
Qed.

(** [authMiddleware] lets a request through exactly when its header is
    ["Bearer " + t] for a token [t] that is not empty and that the library
    verifies; the context it hands on differs from the one it got only in
    the identity, which is the payload of the token.  Every refusal has
    status 401.  [optionalAuthMiddleware] never refuses: it hands on what
    [authMiddleware] would, and the context as it got it where
    [authMiddleware] refuses. *)
Theorem authMiddleware_decision (c : Context) :
  (forall c',
     authMiddleware c = Ok c' <->
     exists t payload,
       authorization c = Some ("Bearer " +:+ t) /\ t <> ""
       /\ verifyToken t (ctx_env c) (ctx_now c) = Some payload
       /\ c' = set_user payload c)
  /\ (forall e, authMiddleware c = Err e -> status e = Some 401)
  /\ optionalAuthMiddleware c
     = match authMiddleware c with
       | Ok c' => Ok c'
       | Err _ => Ok c
       end.
Proof.
  split; [|split].
  - intros c'. split; [apply authMiddleware_Ok_inv|].
    intros (t & payload & Hh & Hne & Hv & ->).
    rewrite (authMiddleware_bearer c t Hh), decide_False by done.
    by rewrite Hv.
  - apply authMiddleware_Err_inv.
  - unfold optionalAuthMiddleware, authMiddleware.
    destruct (extractTokenFromHeader (authorization c)) as [t|]; [|done].
    destruct (decide (t = "")); [done|].
    by destruct (verifyToken t (ctx_env c) (ctx_now c)).
Qed.

(** Authentication then the role check, as a route chains them.  The
    chain lets a request through exactly when [authMiddleware] does and
    the role of the token is one of the required ones; a request whose
    token is missing or not verified is refused with 401, one whose token
    is verified with another role with 403.  The role check on its own, on
    a request no identity was attached to, refuses with 401 whatever the
    token. *)
Theorem auth_then_role (requiredRoles : list string) (c : Context) :
  (forall c',
     run_chain [authMiddleware; roleMiddleware requiredRoles] c = Ok c' <->
     authMiddleware c = Ok c'
     /\ exists payload, ctx_user c' = Some payload
                        /\ jwt_role payload ∈ requiredRoles)
  /\ (forall e,
        run_chain [authMiddleware; roleMiddleware requiredRoles] c = Err e ->
        (status e = Some 401 /\ authMiddleware c = Err e)
        \/ (status e = Some 403
            /\ exists c' payload,
                 authMiddleware c = Ok c' /\ ctx_user c' = Some payload
                 /\ jwt_role payload ∉ requiredRoles))
  /\ (ctx_user c = None ->
      run_chain [roleMiddleware requiredRoles] c
      = Err (HTTPException 401 "Usuário não autenticado")).
Proof.
  split; [|split].
  - intros c'. simpl.
    destruct (authMiddleware c) as [c1|e] eqn:Hauth.
    + apply authMiddleware_Ok_inv in Hauth as (t & payload & _ & _ & _ & ->).
      unfold roleMiddleware. simpl.
      case_bool_decide as Hrole; split.
      * intros [= <-]. split; [done|]. by exists payload.
      * by intros [[= <-] _].
      * done.
      * intros [[= <-] (p & [= <-] & Hin)]. done.
    + split; [done|]. by intros [? _].
  - intros e. simpl.
    destruct (authMiddleware c) as [c1|e1] eqn:Hauth.
    + pose proof Hauth as Hinv.
      apply authMiddleware_Ok_inv in Hinv as (t & payload & _ & _ & _ & ->).
      unfold roleMiddleware. simpl.
      case_bool_decide as Hrole; [done|]. intros [= <-]. right.
      split; [done|]. by exists (set_user payload c), payload.
    + intros [= <-]. left. split; [|done]. by eapply authMiddleware_Err_inv.
  - intros Hnone. simpl. unfold roleMiddleware. by rewrite Hnone.
Qed.

End Authentication.

Section TokenFlow.
Context `{Primitives}.

(** A token [login] issued authenticates as the user that logged in:
    provided the library verifies the token it signed for that user, a
    later request carrying ["Bearer " + token] passes [authMiddleware], and
    the identity attached to it is the id, the email and the role of the
    stored, active user with the email of the login. *)
Theorem login_token_authenticates (data : LoginUserInput) (env : Env) (now : Z)
    (w w' : World) (r : gmap string jsval * string) (c : Context) (u : Usuario) :
  UserRepository.by_email (login_email data) w = Some u ->
  UserService.login data env now w = (Ok r, w') ->
  authorization c = Some ("Bearer " +:+ r.2) ->
  ctx_env c = env ->
  r.2 <> "" ->
  verifyToken (generateToken (UserService.payload_of u) env now) env (ctx_now c)
  = Some (UserService.payload_of u) ->
  ativo u = true
  /\ r.2 = generateToken (UserService.payload_of u) env now
  /\ authMiddleware c = Ok (set_user (UserService.payload_of u) c)
  /\ UserService.payload_of u = mkJwtPayload (usuario_id u) (email u) (role u).
Proof.
  intros Hby Hlogin Hh Henv Hne Hverify.
  unfold UserService.login, UserRepository.findByEmail in Hlogin.
  unfold bind in Hlogin. rewrite Hby in Hlogin.
  destruct (ativo u) eqn:Ha; [|done]. cbn [negb] in Hlogin.
  destruct (comparePassword (login_senha data) (senha u)); [|done].
  cbn [negb ret] in Hlogin. injection Hlogin as <- <-.
  split; [done|]. split; [done|]. split; [|done].
  rewrite (authMiddleware_bearer c _ Hh), decide_False by done.
  rewrite Henv. cbn [snd]. by rewrite Hverify.
Qed.

End TokenFlow.

(** An instance for the examples whose tokens can be read back: the
    token is the payload and the secret in clear, and it verifies when the
    secret is the one given. *)
Definition clear_sign (payload : JwtPayload) (secret expiresIn : string)
                      (now : Z) : string :=
  join ":" [pretty (userId payload); jwt_email payload; jwt_role payload; secret].

Definition clear_verify (token secret : string) (now : Z) : option JwtPayload :=
  match split_on ":" "" token with
  | [i; e; r; s] =>
      if decide (s = secret)
      then (fun n => mkJwtPayload n e r) <$> parseInt i
      else None
  | _ => None
  end.

Definition clear_primitives : Primitives := {|
  bcrypt_hash := plain_hash;
  bcrypt_compare := fun password hash =>
    bool_decide (hash = plain_hash password 12);
  jwt_sign := clear_sign;
  jwt_verify := clear_verify;
|}.

Definition ana_token : string := "1:ana@x.com:user:segredo".

Definition request_with (header : option string) : Context :=
  mkContext header None test_env 0.

Lemma authMiddleware_decision_witness :
  @authMiddleware clear_primitives (request_with (Some ("Bearer " +:+ ana_token)))
  = Ok (set_user ana (request_with (Some ("Bearer " +:+ ana_token))))
  /\ @optionalAuthMiddleware clear_primitives (request_with (Some "Bearer x"))
     = Ok (request_with (Some "Bearer x")).
Proof.
  split.
  - apply (proj1 (@authMiddleware_decision clear_primitives
                    (request_with (Some ("Bearer " +:+ ana_token))))).
    exists ana_token, ana.
    split; [reflexivity|]. split; [discriminate|].
    split; [vm_compute; reflexivity | reflexivity].
  - rewrite (proj2 (proj2 (@authMiddleware_decision clear_primitives
                             (request_with (Some "Bearer x"))))).
    vm_compute. reflexivity.
Defined.

Lemma auth_then_role_witness :
  @run_chain [@authMiddleware clear_primitives; roleMiddleware ["user"]]
             (request_with (Some ("Bearer " +:+ ana_token)))
  = Ok (set_user ana (request_with (Some ("Bearer " +:+ ana_token))))
  /\ run_chain [roleMiddleware ["ADMIN"]]
               (request_with (Some ("Bearer " +:+ ana_token)))
     = Err (HTTPException 401 "Usuário não autenticado").
Proof.
  split.
  - apply (proj1 (@auth_then_role clear_primitives ["user"]
                    (request_with (Some ("Bearer " +:+ ana_token))))).
    split; [vm_compute; reflexivity|].
    exists ana. split; [reflexivity|]. apply (bool_decide_unpack _). reflexivity.
  - apply (proj2 (proj2 (@auth_then_role clear_primitives ["ADMIN"]
                           (request_with (Some ("Bearer " +:+ ana_token)))))).
    reflexivity.
Defined.

Lemma login_token_authenticates_witness :
  @authMiddleware clear_primitives
    (request_with (Some ("Bearer " +:+ ana_token)))
  = Ok (set_user (mkJwtPayload 1 "ana@x.com" "user")
                 (request_with (Some ("Bearer " +:+ ana_token)))).
Proof.
  destruct (@login_token_authenticates clear_primitives
              (mkLoginUserInput "ana@x.com" "Senha123") test_env 5
              world_users world_users
              (userWithoutPassword (obj_of_usuario ana_row), ana_token)
              (request_with (Some ("Bearer " +:+ ana_token))) ana_row)
    as (_ & _ & Hauth & _).
  - vm_compute. reflexivity.
  - vm_compute. reflexivity.
  - reflexivity.
  - reflexivity.
  - discriminate.
  - vm_compute. reflexivity.
  - exact Hauth.
Defined.

(** ** Files: keys *)

(** The character [c] occurs in [s]. *)
Fixpoint mentions (c : ascii) (s : string) : bool :=
  match s with
  | EmptyString => false
  | String a r => if decide (a = c) then true else mentions c r
  end.

Lemma app_cons (a : ascii) (s t : string) :
  String a s +:+ t = String a (s +:+ t).
Proof. reflexivity. Qed.

Lemma append_empty_r (s : string) : s +:+ "" = s.
Proof. induction s as [|a s IH]; [done|]. by rewrite app_cons, IH. Qed.

Lemma append_assoc (a b c : string) : (a +:+ b) +:+ c = a +:+ (b +:+ c).
Proof. induction a as [|x a IH]; [done|]. by rewrite !app_cons, IH. Qed.

Lemma append_inj_l (s a b : string) : s +:+ a = s +:+ b -> a = b.
Proof. apply (inj (String.app s)). Qed.

Lemma split_on_last (sep : ascii) (s cur : string) :
  exists ext,
    last (split_on sep cur s) = Some ext
    /\ ((mentions sep s = false /\ ext = cur +:+ s)
        \/ (mentions sep s = true /\ mentions sep ext = false
            /\ exists pre, s = pre +:+ String sep ext)).
Proof.
  revert cur. induction s as [|a s IH]; intros cur; simpl.
  - exists cur. split; [done|]. left. by rewrite append_empty_r.
  - destruct (decide (a = sep)) as [->|Hne].
    + destruct (IH "") as (ext & Hlast & Hcase).
      exists ext. split.
      * destruct (split_on sep "" s) as [|x l] eqn:Hs; [done|]. exact Hlast.
      * right. split; [done|].
        destruct Hcase as [[Hno ->] | (Hyes & Hext & pre & ->)].
        -- split; [done|]. by exists "".
        -- split; [done|]. by exists (String sep pre).
    + destruct (IH (cur +:+ String a "")) as (ext & Hlast & Hcase).
      exists ext. split; [done|].
      destruct Hcase as [[Hno ->] | (Hyes & Hext & pre & ->)].
      * left. split; [done|]. by rewrite append_assoc.
      * right. split; [done|]. split; [done|]. by exists (String a pre).
Qed.

(** The key [generateFileKey] builds is the folder of the user, the
    time, the random digits and, after a last dot, an extension without
    dots: what follows the last dot of the name of the file or, for a name
    without a dot, the whole name. *)
Theorem generateFileKey_shape (originalName uid : string) (timestamp : Z)
                              (random : string) :
  exists ext,
    FileService.generateFileKey originalName uid timestamp random
    = "uploads/" +:+ uid +:+ "/" +:+ pretty timestamp +:+ "-" +:+ random
                 +:+ "." +:+ ext
    /\ mentions "." ext = false
    /\ (mentions "." originalName = false -> ext = originalName)
    /\ (mentions "." originalName = true ->
        exists pre, originalName = pre +:+ "." +:+ ext).
Proof.
  destruct (split_on_last "." originalName "") as (ext & Hlast & Hcase).
  exists ext. unfold FileService.generateFileKey. rewrite Hlast. simpl.
  split; [done|].
  destruct Hcase as [[Hno Hext] | (Hyes & Hext & pre & ->)].
  - change ("" +:+ originalName) with originalName in Hext. subst ext.
    split; [done|]. split; [done|]. intros Hyes. by rewrite Hno in Hyes.
  - split; [done|]. split.
    + intros Hno. by rewrite Hno in Hyes.
    + intros _. by exists pre.
Qed.

Lemma scoped_differ (uid1 uid2 rest1 rest2 : string) :
  mentions "/" uid1 = false -> mentions "/" uid2 = false ->
  uid1 +:+ "/" +:+ rest1 = uid2 +:+ "/" +:+ rest2 -> uid1 = uid2.
Proof.
  revert uid2. induction uid1 as [|a u1 IH]; intros [|b u2] H1 H2 Heq.
  - done.
  - change (String "/" rest1 = String b (u2 +:+ "/" +:+ rest2)) in Heq.
    injection Heq as <- _. by simpl in H2.
  - change (String a (u1 +:+ "/" +:+ rest1) = String "/" rest2) in Heq.
    injection Heq as -> _. by simpl in H1.
  - change (String a (u1 +:+ "/" +:+ rest1) = String b (u2 +:+ "/" +:+ rest2))
      in Heq.
    injection Heq as -> Heq. simpl in H1, H2.
    case_decide; [done|]. f_equal. by eapply IH.
Qed.

(** The key a file is stored under, for either setting of
    [generateUniqueKey]. *)
Definition upload_key (file : File) (uid : string) (options : FileUploadOptions)
                      (timestamp : Z) (random : string) : string :=
  if bool_decide (generateUniqueKey options ≠ Some false)
  then FileService.generateFileKey (file_name file) uid timestamp random
  else "uploads/" +:+ uid +:+ "/" +:+ file_name file.

Lemma upload_key_scoped (file : File) (uid : string) (options : FileUploadOptions)
                        (timestamp : Z) (random : string) :
  exists rest, upload_key file uid options timestamp random
               = "uploads/" +:+ (uid +:+ "/" +:+ rest).
Proof.
  unfold upload_key, FileService.generateFileKey.
  case_bool_decide; by eexists.
Qed.

(** ** Files: uploads *)

(** The object an upload puts in the bucket. *)
Definition stored_object (file : File) (uid : string) (timestamp : Z) : R2Object :=
  mkR2Object (file_stream file) (file_type file)
             ("attachment; filename=" +:+ dquote +:+ file_name file +:+ dquote)
             (file_name file) uid timestamp.

Section Uploads.
Variable formatFileSize : number -> string.
Variable baseUrl : string.

(** The row an upload adds to the table of files. *)
Definition stored_row (w : World) (file : File) (key : string) : Arquivo :=
  mkArquivo (arquivo_seq w + 1) key (baseUrl +:+ "/files/" +:+ key)
            (file_type file) (file_size file) (clock w).

Lemma validateFile_accepts (file : File) (options : FileUploadOptions) :
  ~ rejected file options ->
  FileService.validateFile formatFileSize file options = Ok tt.
Proof.
  intros Hnot.
  destruct (FileService.validateFile formatFileSize file options) as [[]|e] eqn:Hv;
    [done|].
  destruct Hnot. apply (validateFile_rejects formatFileSize). by exists e.
Qed.

Lemma uploadFile_run (file : File) (uid : string) (options : FileUploadOptions)
                     (timestamp : Z) (random : string) (w : World) :
  FileService.validateFile formatFileSize file options = Ok tt ->
  FileService.uploadFile formatFileSize baseUrl file uid options timestamp random w
  = (Ok (mkUploadedFile (arquivo_seq w + 1) None None (file_size file)
                        (file_type file)
                        (baseUrl +:+ "/files/"
                                 +:+ upload_key file uid options timestamp random)
                        None (clock w)),
     with_arquivos
       (<[arquivo_seq w + 1
          := stored_row w file (upload_key file uid options timestamp random)]>
          (arquivos w))
       (arquivo_seq w + 1)
       (with_bucket
          (<[upload_key file uid options timestamp random
             := stored_object file uid timestamp]> (bucket w)) w)).
Proof.
  intros Hok. unfold FileService.uploadFile. run. by rewrite Hok.
Qed.

(** [uploadFile] succeeds exactly for a file that is not rejected.  It
    then puts the bytes of the file, with its type and name, in the bucket
    under the key, adds one row with the key, the size, the type and the
    address [baseUrl/files/key] to the table of files, and answers the id
    and the address of that row; the other objects of the bucket, the
    other tables and the clock are as before. *)
Theorem uploadFile_stores (file : File) (uid : string) (options : FileUploadOptions)
                          (timestamp : Z) (random : string) (w : World) :
  (is_Ok (FileService.uploadFile formatFileSize baseUrl file uid options
                                 timestamp random w).1 = true
   <-> ~ rejected file options)
  /\
  (~ rejected file options ->
   exists up w',
     let key := upload_key file uid options timestamp random in
     FileService.uploadFile formatFileSize baseUrl file uid options
                            timestamp random w = (Ok up, w')
     /\ bucket w' = <[key := stored_object file uid timestamp]> (bucket w)
     /\ arquivos w' !! up_id up = Some (stored_row w file key)
     /\ up_id up = arquivo_seq w + 1
     /\ up_url up = baseUrl +:+ "/files/" +:+ key
     /\ up_tamanho up = file_size file
     /\ up_tipo up = file_type file
     /\ (forall k, k <> key -> bucket w' !! k = bucket w !! k)
     /\ (forall j, j <> up_id up -> arquivos w' !! j = arquivos w !! j)
     /\ pedidos w' = pedidos w /\ usuarios w' = usuarios w).
Proof.
  split.
  - split.
    + intros Hok Hrej.
      apply (validateFile_rejects formatFileSize) in Hrej as [e He].
      unfold FileService.uploadFile in Hok. run. by rewrite He in Hok.
    + intros Hnot. by rewrite uploadFile_run by by apply validateFile_accepts.
  - intros Hnot. eexists _, _. cbv zeta.
    split; [by apply uploadFile_run, validateFile_accepts|]. simpl.
    split; [done|]. split; [by rewrite lookup_insert_eq|].
    repeat split; try done.
    + intros k Hk. by rewrite lookup_insert_ne.
    + intros j Hj. by rewrite lookup_insert_ne.
Qed.

(** Two uploads that resolve to the same key, as two files of one name
    do when [generateUniqueKey] is off: the second replaces the object of
    the first in the bucket, while the table keeps a row for each, both
    with the same address. *)
Theorem same_key_replaces_object (f1 f2 : File) (uid : string)
    (options : FileUploadOptions) (t1 t2 : Z) (r1 r2 : string) (w : World) :
  ~ rejected f1 options -> ~ rejected f2 options ->
  upload_key f1 uid options t1 r1 = upload_key f2 uid options t2 r2 ->
  exists up1 w1 up2 w2,
    FileService.uploadFile formatFileSize baseUrl f1 uid options t1 r1 w
    = (Ok up1, w1)
    /\ FileService.uploadFile formatFileSize baseUrl f2 uid options t2 r2 w1
       = (Ok up2, w2)
    /\ bucket w2
       = <[upload_key f2 uid options t2 r2 := stored_object f2 uid t2]> (bucket w)
    /\ up_id up1 <> up_id up2
    /\ up_url up1 = up_url up2
    /\ is_Some (arquivos w2 !! up_id up1)
    /\ is_Some (arquivos w2 !! up_id up2).
Proof.
  intros H1 H2 Hkey.
  eexists _, _, _, _.
  split; [by apply uploadFile_run, validateFile_accepts|].
  split; [by apply uploadFile_run, validateFile_accepts|].
  simpl. rewrite Hkey. split; [by rewrite insert_insert_eq|].
  split; [lia|]. split; [done|]. split.
  - rewrite lookup_insert_ne by lia. by rewrite lookup_insert_eq.
  - by rewrite lookup_insert_eq.
Qed.

(** Files of different users never share a key: whatever the names, the
    times and the settings, an upload of one user leaves the objects of
    another user in place.  The user ids are the folders of the keys and
    have no slash in them. *)
Theorem uploads_of_users_are_apart (f1 f2 : File) (uid1 uid2 : string)
    (o1 o2 : FileUploadOptions) (t1 t2 : Z) (r1 r2 : string) (w : World) :
  uid1 <> uid2 ->
  mentions "/" uid1 = false -> mentions "/" uid2 = false ->
  upload_key f1 uid1 o1 t1 r1 <> upload_key f2 uid2 o2 t2 r2
  /\ (~ rejected f1 o1 ->
      forall w1 up1,
        FileService.uploadFile formatFileSize baseUrl f1 uid1 o1 t1 r1 w
        = (Ok up1, w1) ->
        bucket (FileService.uploadFile formatFileSize baseUrl f2 uid2 o2 t2 r2
                                       w1).2
          !! upload_key f1 uid1 o1 t1 r1
        = Some (stored_object f1 uid1 t1)).
Proof.
  intros Hne Hs1 Hs2.
  assert (Hkeys : upload_key f1 uid1 o1 t1 r1 <> upload_key f2 uid2 o2 t2 r2).
  { destruct (upload_key_scoped f1 uid1 o1 t1 r1) as [rest1 ->].
    destruct (upload_key_scoped f2 uid2 o2 t2 r2) as [rest2 ->].
    intros Heq. apply append_inj_l in Heq.
    by apply Hne, (scoped_differ uid1 uid2 rest1 rest2). }
  split; [done|]. intros H1 w1 up1.
  rewrite uploadFile_run by by apply validateFile_accepts.
  intros [= <- <-].
  destruct (FileService.validateFile formatFileSize f2 o2) as [[]|e] eqn:Hv.
  - rewrite uploadFile_run by done. simpl.
    rewrite lookup_insert_ne by done. by rewrite lookup_insert_eq.
  - unfold FileService.uploadFile. run. rewrite Hv. simpl.
    by rewrite lookup_insert_eq.
Qed.

End Uploads.

Lemma num_gtb_of_Z (a b : Z) :
  num_gtb (num_of_Z a) (num_of_Z b) = bool_decide (b < a).
Proof. unfold num_gtb. apply num_ltb_of_Z. Qed.

(** The size limit the controller hands to the service.  With
    [MAX_FILE_SIZE] unset it is 10485760 bytes; with a value [parseInt]
    reads a number from, that number; and with a value it reads no number
    from, the limit is [NaN], which no size exceeds: no file is refused
    for its size. *)
Theorem upload_size_limit (env : Env) (file : File) :
  (MAX_FILE_SIZE env = "" ->
   num_gtb (num_of_Z (file_size file)) (maxSize (upload_options env))
   = bool_decide (10485760 < file_size file))
  /\ (forall n, MAX_FILE_SIZE env <> "" ->
        parseInt (MAX_FILE_SIZE env) = Some n ->
        num_gtb (num_of_Z (file_size file)) (maxSize (upload_options env))
        = bool_decide (n < file_size file))
  /\ (MAX_FILE_SIZE env <> "" ->
      parseInt (MAX_FILE_SIZE env) = None ->
      num_gtb (num_of_Z (file_size file)) (maxSize (upload_options env)) = false).
Proof.
  unfold upload_options, str_or. simpl. split; [|split].
  - intros ->. simpl. apply num_gtb_of_Z.
  - intros n Hne Hn. rewrite decide_False by done. rewrite Hn.
    apply num_gtb_of_Z.
  - intros Hne Hn. rewrite decide_False by done. by rewrite Hn.
Qed.

Definition env_with_max (s : string) : Env := mkEnv "segredo" "" "" s "".

Lemma upload_size_limit_witness :
  num_gtb (num_of_Z (file_size big_file)) (maxSize (upload_options test_env))
  = true
  /\ num_gtb (num_of_Z (file_size script_file))
             (maxSize (upload_options (env_with_max "10MB"))) = true
  /\ num_gtb (num_of_Z (file_size big_file))
             (maxSize (upload_options (env_with_max "dez"))) = false.
Proof.
  split; [|split].
  - rewrite (proj1 (upload_size_limit test_env big_file)); reflexivity.
  - rewrite (proj1 (proj2 (upload_size_limit (env_with_max "10MB") script_file)) 10);
      [reflexivity | discriminate | reflexivity].
  - apply (proj2 (proj2 (upload_size_limit (env_with_max "dez") big_file)));
      [discriminate | reflexivity].
Defined.

(** ** Files: several at once, and the controller *)

Section ManyUploads.
Variable formatFileSize : number -> string.
Variable baseUrl : string.

Lemma uploadFile_rejected (file : File) (uid : string) (options : FileUploadOptions)
                          (timestamp : Z) (random : string) (w : World) (e : Error) :
  FileService.validateFile formatFileSize file options = Err e ->
  FileService.uploadFile formatFileSize baseUrl file uid options timestamp random w
  = (Err (new_Error ("Erro no upload: " +:+ message e)), w).
Proof. intros He. unfold FileService.uploadFile. run. by rewrite He. Qed.

Definition accepted (options : FileUploadOptions) (fr : File * string) : Prop :=
  FileService.validateFile formatFileSize fr.1 options = Ok tt.

Lemma upload_each_accepted (files : list (File * string)) (uid : string)
                           (options : FileUploadOptions) (timestamp : Z)
                           (w : World) :
  Forall (accepted options) files ->
  exists ups,
    FileService.all_results
      (FileService.upload_each formatFileSize baseUrl files uid options
                               timestamp w).1 = Ok ups
    /\ Forall2 (fun fr up => up_tamanho up = file_size fr.1
                             /\ up_tipo up = file_type fr.1) files ups.
Proof.
  revert w. induction files as [|[f rnd] files IH]; intros w Hall.
  - exists []. by split.
  - apply Forall_cons in Hall as [Hf Hall]. simpl.
    rewrite (uploadFile_run formatFileSize baseUrl f uid options timestamp rnd w Hf).
    match goal with
    | |- context [FileService.upload_each _ _ files uid options timestamp ?w1] =>
        destruct (IH w1 Hall) as (ups & Hups & Hrel);
        destruct (FileService.upload_each formatFileSize baseUrl files uid options
                                          timestamp w1) as [rs w2]
    end.
    simpl in *. rewrite Hups. eexists. split; [reflexivity|].
    by constructor.
Qed.

Lemma upload_each_first_rejected (pre post : list (File * string)) (f : File)
    (rnd uid : string) (options : FileUploadOptions) (timestamp : Z) (w : World)
    (e : Error) :
  Forall (accepted options) pre ->
  FileService.validateFile formatFileSize f options = Err e ->
  FileService.all_results
    (FileService.upload_each formatFileSize baseUrl (pre ++ (f, rnd) :: post)
                             uid options timestamp w).1
  = Err (new_Error ("Erro no upload: " +:+ message e)).
Proof.
  revert w. induction pre as [|[g rg] pre IH]; intros w Hpre He.
  - simpl. rewrite (uploadFile_rejected f uid options timestamp rnd w e He).
    by destruct (FileService.upload_each _ _ post uid options timestamp w).
  - apply Forall_cons in Hpre as [Hg Hpre]. simpl.
    rewrite (uploadFile_run formatFileSize baseUrl g uid options timestamp rg w Hg).
    match goal with
    | |- context [FileService.upload_each _ _ _ uid options timestamp ?w1] =>
        specialize (IH w1 Hpre He);
        destruct (FileService.upload_each formatFileSize baseUrl
                    (pre ++ (f, rnd) :: post) uid options timestamp w1)
          as [rs w2]
    end.
    simpl in *. by rewrite IH.
Qed.

(** [uploadMultipleFiles] answers one uploaded file for each file given,
    in the order given, when every file passes the validation; when one
    does not, the call fails with the error of the first such file, behind
    the two prefixes.  With no file at all it answers the empty list and
    writes nothing. *)
Theorem uploadMultipleFiles_outcome (files : list (File * string)) (uid : string)
    (options : FileUploadOptions) (timestamp : Z) (w : World) :
  (Forall (accepted options) files ->
   exists ups w',
     FileService.uploadMultipleFiles formatFileSize baseUrl files uid options
                                     timestamp w = (Ok ups, w')
     /\ Forall2 (fun fr up => up_tamanho up = file_size fr.1
                              /\ up_tipo up = file_type fr.1) files ups)
  /\
  (forall (pre post : list (File * string)) f rnd e,
     files = (pre ++ (f, rnd) :: post)%list ->
     Forall (accepted options) pre ->
     FileService.validateFile formatFileSize f options = Err e ->
     (FileService.uploadMultipleFiles formatFileSize baseUrl files uid options
                                      timestamp w).1
     = Err (new_Error ("Erro no upload múltiplo: Erro no upload: " +:+ message e)))
  /\
  FileService.uploadMultipleFiles formatFileSize baseUrl [] uid options timestamp w
  = (Ok [], w).
Proof.
  split; [|split].
  - intros Hall.
    destruct (upload_each_accepted files uid options timestamp w Hall)
      as (ups & Hups & Hrel).
    unfold FileService.uploadMultipleFiles.
    destruct (FileService.upload_each formatFileSize baseUrl files uid options
                                      timestamp w) as [rs w'].
    simpl in Hups. rewrite Hups. by exists ups, w'.
  - intros pre post f rnd e -> Hpre He.
    pose proof (upload_each_first_rejected pre post f rnd uid options timestamp
                  w e Hpre He) as Hres.
    unfold FileService.uploadMultipleFiles.
    destruct (FileService.upload_each formatFileSize baseUrl
                (pre ++ (f, rnd) :: post) uid options timestamp w) as [rs w'].
    simpl in Hres. by rewrite Hres.
  - reflexivity.
Qed.

End ManyUploads.

Section FileControllerProperties.
Variable formatFileSize : number -> string.
Variable baseUrl : string.

(** What the upload route answers.  Without an identity: 401.  With one
    and no file in the form: 400.  With a file the validation refuses: 500,
    not a 4xx, with the reason behind ['Erro no upload: '].  In these three
    cases nothing is written.  With a file that passes: 201. *)
Theorem file_controller_upload (c : Context) (file : option File)
                               (timestamp : Z) (random : string) (w : World) :
  (userId <$> ctx_user c = None \/ userId <$> ctx_user c = Some 0 ->
   FileController.uploadFile formatFileSize baseUrl c file timestamp random w
   = (mkResponse (Plain_error "Usuário não autenticado") 401, w))
  /\
  (forall uid, userId <$> ctx_user c = Some uid -> uid <> 0 ->
     (file = None ->
      FileController.uploadFile formatFileSize baseUrl c file timestamp random w
      = (mkResponse (Plain_error "Nenhum arquivo enviado") 400, w))
     /\ (forall f e, file = Some f ->
           FileService.validateFile formatFileSize f (upload_options (ctx_env c))
           = Err e ->
           FileController.uploadFile formatFileSize baseUrl c file timestamp
                                     random w
           = (failure ("Erro no upload: " +:+ message e) 500, w))
     /\ (forall f, file = Some f ->
           FileService.validateFile formatFileSize f (upload_options (ctx_env c))
           = Ok tt ->
           res_status
             (FileController.uploadFile formatFileSize baseUrl c file timestamp
                                        random w).1 = 201)).
Proof.
  unfold FileController.uploadFile, handler. split.
  - by intros [-> | ->].
  - intros uid Huid Hne. rewrite Huid. simpl.
    destruct (decide (uid = 0)) as [|_]; [done|].
    split; [|split].
    + by intros ->.
    + intros f e -> He. unfold bind.
      rewrite (uploadFile_rejected formatFileSize baseUrl f _ _ _ _ w e He).
      unfold error_response, str_or. cbn [message status new_Error].
      destruct (decide ("Erro no upload: " +:+ message e = "")) as [Heq|_];
        [|done].
      by apply (f_equal String.length) in Heq.
    + intros f -> Hok. unfold bind.
      by rewrite (uploadFile_run formatFileSize baseUrl f _ _ _ _ w Hok).
Qed.

End FileControllerProperties.

Definition photo : File := mkFile "foto.png" 3 "image/png" [137; 80; 78].
Definition other_photo : File := mkFile "foto.png" 2 "image/png" [255; 216].

Definition keep_names : FileUploadOptions :=
  mkFileUploadOptions (num_of_Z 10485760) ["image/png"] (Some false).

Lemma photo_passes (f : File) (options : FileUploadOptions) :
  num_gtb (num_of_Z (file_size f)) (maxSize options) = false ->
  bool_decide (file_type f ∈ allowedTypes options) = true ->
  bool_decide (file_size f = 0) = false ->
  ~ rejected f options.
Proof.
  intros Hsize Htype Hzero [H|[H|H]].
  - congruence.
  - by apply bool_decide_eq_true in Htype.
  - by apply bool_decide_eq_false in Hzero.
Qed.

Lemma uploadFile_stores_witness :
  exists up w',
    FileService.uploadFile (fun _ => "10 MB") "https://api" photo "1"
                           (upload_options test_env) 1700 "k3x9" empty_world
    = (Ok up, w')
    /\ up_url up = "https://api/files/uploads/1/1700-k3x9.png"
    /\ r2_body <$> bucket w' !! "uploads/1/1700-k3x9.png" = Some [137; 80; 78].
Proof.
  destruct (proj2 (uploadFile_stores (fun _ => "10 MB") "https://api" photo "1"
                     (upload_options test_env) 1700 "k3x9" empty_world))
    as (up & w' & Hrun & Hbucket & _ & _ & Hurl & _).
  - apply photo_passes; reflexivity.
  - exists up, w'. split; [exact Hrun|]. split.
    + rewrite Hurl. vm_compute. reflexivity.
    + rewrite Hbucket. vm_compute. reflexivity.
Defined.

Lemma same_key_replaces_object_witness :
  exists up1 w1 up2 w2,
    FileService.uploadFile (fun _ => "10 MB") "https://api" photo "1" keep_names
                           1700 "a" empty_world = (Ok up1, w1)
    /\ FileService.uploadFile (fun _ => "10 MB") "https://api" other_photo "1"
                              keep_names 1800 "b" w1 = (Ok up2, w2)
    /\ r2_body <$> bucket w2 !! "uploads/1/foto.png" = Some [255; 216]
    /\ up_id up1 <> up_id up2
    /\ up_url up1 = up_url up2.
Proof.
  destruct (same_key_replaces_object (fun _ => "10 MB") "https://api" photo
              other_photo "1" keep_names 1700 1800 "a" "b" empty_world)
    as (up1 & w1 & up2 & w2 & H1 & H2 & Hbucket & Hids & Hurls & _).
  - apply photo_passes; reflexivity.
  - apply photo_passes; reflexivity.
  - reflexivity.
  - exists up1, w1, up2, w2. split; [exact H1|]. split; [exact H2|].
    split; [|split; [exact Hids | exact Hurls]].
    rewrite Hbucket. vm_compute. reflexivity.
Defined.

Lemma uploads_of_users_are_apart_witness :
  upload_key photo "1" keep_names 1700 "a"
  <> upload_key other_photo "12" keep_names 1700 "a".
Proof.
  apply (uploads_of_users_are_apart (fun _ => "10 MB") "https://api"
           photo other_photo "1" "12" keep_names keep_names
           1700 1700 "a" "a" empty_world);
    [discriminate | reflexivity | reflexivity].
Defined.

Lemma uploadMultipleFiles_outcome_witness :
  (FileService.uploadMultipleFiles (fun _ => "10 MB") "https://api"
     [(photo, "a"); (empty_file, "b"); (other_photo, "c")] "1"
     (upload_options test_env) 1700 empty_world).1
  = Err (new_Error
           "Erro no upload múltiplo: Erro no upload: Arquivo está vazio").
Proof.
  apply (proj1 (proj2 (uploadMultipleFiles_outcome (fun _ => "10 MB")
                         "https://api"
                         [(photo, "a"); (empty_file, "b"); (other_photo, "c")]
                         "1" (upload_options test_env) 1700 empty_world))
           [(photo, "a")] [(other_photo, "c")] empty_file "b"
           (new_Error "Arquivo está vazio")).
  - reflexivity.
  - constructor; [reflexivity | constructor].
  - reflexivity.
Defined.

Lemma file_controller_upload_witness :
  FileController.uploadFile (fun _ => "10 MB") "https://api"
                            (request_with None) (Some photo) 1700 "a" empty_world
  = (mkResponse (Plain_error "Usuário não autenticado") 401, empty_world)
  /\ FileController.uploadFile (fun _ => "10 MB") "https://api"
                               (request_of ana) (Some empty_file) 1700 "a"
                               empty_world
     = (failure "Erro no upload: Arquivo está vazio" 500, empty_world).
Proof.
  split.
  - apply (proj1 (file_controller_upload (fun _ => "10 MB") "https://api"
                    (request_with None) (Some photo) 1700 "a" empty_world)).
    left. reflexivity.
  - apply (proj1 (proj2 (proj2 (file_controller_upload (fun _ => "10 MB")
                                  "https://api" (request_of ana)
                                  (Some empty_file) 1700 "a" empty_world)
                           1 eq_refl ltac:(discriminate)))
             empty_file (new_Error "Arquivo está vazio")); reflexivity.
Defined.
